(** * JLLVM: descriptors, stub mangling and the operand stack

    A shallow embedding of
    - [jllvm/class/Descriptors.hpp]: base, object and array types, their
      comparison operators and [isReferenceDescriptor];
    - [jllvm/materialization/ClassObjectStubMangling.hpp]: the grammars of
      the mangled stub symbols and the demangled variants;
    - [jllvm/materialization/CodeGeneratorUtils.hpp]: [OperandStack].

    C++ undefined behaviour (an index past the end of a [std::vector],
    [front()] of an empty container, a failed [assert]) is a computation
    without result: the embedded function returns [None] there. *)

From Stdlib Require Import String Ascii.
From stdpp Require Import base option list gmap.

(** ** llvm::StringRef *)

Module StringRef.

(** [StringRef::front()]: "Get the first character in the string"; its body
    is [assert(!empty()); return Data[0];]. *)
Definition front (s : string) : option ascii :=
  match s with
  | EmptyString => None
  | String c _ => Some c
  end.

(** [StringRef::operator==]: same length and same bytes. *)
Definition equals (l r : string) : bool := String.eqb l r.

(** [StringRef::consume_front(Prefix)]: "Returns true if this StringRef has
    the given prefix and removes that prefix"; the remainder is returned
    here. *)
Fixpoint consume_front (prefix s : string) : option string :=
  match prefix with
  | EmptyString => Some s
  | String p prefix' =>
      match s with
      | EmptyString => None
      | String c s' => if Ascii.eqb c p then consume_front prefix' s' else None
      end
  end.

(** The two halves of a string around the first occurrence of a separator,
    as [StringRef::split(char)] returns them when the separator occurs;
    [None] when it does not. *)
Fixpoint split (separator : ascii) (s : string) : option (string * string) :=
  match s with
  | EmptyString => None
  | String c s' =>
      if Ascii.eqb c separator then Some (EmptyString, s')
      else match split separator s' with
           | Some (l, r) => Some (String c l, r)
           | None => None
           end
  end.

(** [StringRef::contains(char)]. *)
Fixpoint contains (c : ascii) (s : string) : bool :=
  match s with
  | EmptyString => false
  | String c' s' => Ascii.eqb c' c || contains c s'
  end.

(** [StringRef::starts_with(Prefix)]. *)
Definition starts_with (prefix s : string) : bool :=
  match consume_front prefix s with
  | Some _ => true
  | None => false
  end.

End StringRef.

(** ** jllvm/class/Descriptors.hpp *)

Module Descriptors.

(** [BaseType::Values], in declaration order. *)
Inductive Values : Set :=
  | Boolean  (* 'Z' *)
  | Byte     (* 'B' *)
  | Char     (* 'C' *)
  | Short    (* 'S' *)
  | Int      (* 'I' *)
  | Float    (* 'F' *)
  | Double   (* 'D' *)
  | Long     (* 'J' *)
  | Void     (* 'V' *).

#[global] Instance Values_eq_dec : EqDecision Values.
Proof. solve_decision. Defined.

(** [class BaseType], whose only member is [m_value]. *)
Record BaseType : Set := mkBaseType { getValue : Values }.

Definition isIntegerType (b : BaseType) : bool :=
  match getValue b with
  | Boolean | Byte | Char | Short | Int | Long => true
  | _ => false
  end.

Definition isUnsigned (b : BaseType) : bool :=
  bool_decide (getValue b = Char) || bool_decide (getValue b = Boolean).

(** [BaseType::operator==] and [operator!=]. *)
Definition BaseType_eq (lhs rhs : BaseType) : bool :=
  bool_decide (getValue lhs = getValue rhs).

Definition BaseType_ne (lhs rhs : BaseType) : bool :=
  negb (BaseType_eq rhs lhs).

(** [struct ObjectType]. *)
Record ObjectType : Set := mkObjectType { className : string }.

Definition ObjectType_eq (lhs rhs : ObjectType) : bool :=
  StringRef.equals (className lhs) (className rhs).

Definition ObjectType_ne (lhs rhs : ObjectType) : bool :=
  negb (ObjectType_eq rhs lhs).

(** [using FieldType = std::variant<BaseType, ObjectType, ArrayType>] and
    [struct ArrayType { std::unique_ptr<FieldType> componentType; }]: the
    owning pointer is the indirection a recursive type needs in C++, and
    the component it owns is the constructor's argument here. *)
Inductive FieldType : Set :=
  | FT_Base (b : BaseType)
  | FT_Object (o : ObjectType)
  | FT_Array (a : ArrayType)
with ArrayType : Set :=
  | mkArrayType (componentType : FieldType).

Definition componentType (a : ArrayType) : FieldType :=
  match a with mkArrayType c => c end.

(** [std::variant]'s [operator==] holds when both sides hold the same
    alternative and the alternatives compare equal with their own
    [operator==]; [ArrayType::operator==] compares the components the two
    pointers own, which is a call of the variant's operator again. *)
Fixpoint FieldType_eq (lhs rhs : FieldType) : bool :=
  match lhs, rhs with
  | FT_Base l, FT_Base r => BaseType_eq l r
  | FT_Object l, FT_Object r => ObjectType_eq l r
  | FT_Array l, FT_Array r => ArrayType_eq l r
  | _, _ => false
  end
with ArrayType_eq (lhs rhs : ArrayType) : bool :=
  match lhs, rhs with
  | mkArrayType l, mkArrayType r => FieldType_eq l r
  end.

Definition ArrayType_ne (lhs rhs : ArrayType) : bool :=
  negb (ArrayType_eq rhs lhs).

(** [isReferenceDescriptor]: both operands of [||] call [front()], and the
    right one is evaluated only when the left one is false. *)
Definition isReferenceDescriptor (s : string) : option bool :=
  c ← StringRef.front s;
  if Ascii.eqb c "L" then Some true
  else c' ← StringRef.front s; Some (Ascii.eqb c' "[").

(** [struct MethodType]. *)
Record MethodType : Set := mkMethodType {
  parameters : list FieldType;
  returnType : FieldType
}.

End Descriptors.

(** ** jllvm/materialization/ClassObjectStubMangling.hpp *)

Module ClassObjectStubMangling.
Import Descriptors.

Local Open Scope string_scope.

(** [enum class MethodResolution]. *)
Inductive MethodResolution : Set :=
  | Virtual
  | Interface
  | Special.

(** [DemangledVariant]: [std::monostate], the three demangled structs with
    their members, and a bare [FieldType] for a class-object load. *)
Inductive DemangledVariant : Set :=
  | Monostate
  | DemangledFieldAccess (className fieldName : string) (descriptor : FieldType)
  | DemangledMethodResolutionCall (resolution : MethodResolution)
      (className methodName : string) (descriptor : MethodType)
  | DemangledStaticCall (className methodName : string) (descriptor : MethodType)
  | DemangledClassObject (descriptor : FieldType).

(** The letter of each base type, as the comments of [BaseType::Values]
    give it. *)
Definition baseTypeLetter (v : Values) : ascii :=
  match v with
  | Boolean => "Z"
  | Byte => "B"
  | Char => "C"
  | Short => "S"
  | Int => "I"
  | Float => "F"
  | Double => "D"
  | Long => "J"
  | Void => "V"
  end%char.

(** The base type a letter stands for. *)
Definition baseTypeOfLetter (c : ascii) : option Values :=
  if Ascii.eqb c "Z" then Some Boolean
  else if Ascii.eqb c "B" then Some Byte
  else if Ascii.eqb c "C" then Some Char
  else if Ascii.eqb c "S" then Some Short
  else if Ascii.eqb c "I" then Some Int
  else if Ascii.eqb c "F" then Some Float
  else if Ascii.eqb c "D" then Some Double
  else if Ascii.eqb c "J" then Some Long
  else if Ascii.eqb c "V" then Some Void
  else None.

(** Modelled from the spec: the textual form of a field type, which the
    mangling functions append and whose code is not among the sources. A
    base type is its letter, an object type is ['L' <name> ';'] and an
    array type is ['['] followed by its component. *)
Fixpoint fieldDescriptor (t : FieldType) : string :=
  match t with
  | FT_Base b => String (baseTypeLetter (getValue b)) ""
  | FT_Object o => "L" ++ className o ++ ";"
  | FT_Array a => "[" ++ arrayDescriptor a
  end
with arrayDescriptor (a : ArrayType) : string :=
  match a with
  | mkArrayType c => fieldDescriptor c
  end.

(** Modelled from the spec: the parameters of a method type, one
    descriptor after the other. *)
Fixpoint parametersDescriptor (ps : list FieldType) : string :=
  match ps with
  | [] => ""
  | p :: ps' => fieldDescriptor p ++ parametersDescriptor ps'
  end.

(** Modelled from the spec: the textual form of a method type,
    ['(' P1 ... Pn ')' R]. *)
Definition methodDescriptor (m : MethodType) : string :=
  "(" ++ parametersDescriptor (parameters m) ++ ")"
      ++ fieldDescriptor (returnType m).

(** Modelled from the spec: [parseFieldType], declared in [Descriptors.hpp]
    and defined outside the sources, as a recursive descent that also
    returns what follows the descriptor. [Void] is rejected in field and
    array-component position; a string [parseFieldType] asserts on has no
    result. *)
Fixpoint parseFieldTypePrefix (s : string) : option (FieldType * string) :=
  match s with
  | EmptyString => None
  | String c rest =>
      if Ascii.eqb c "L" then
        match StringRef.split ";" rest with
        | Some (name, rest') => Some (FT_Object (mkObjectType name), rest')
        | None => None
        end
      else if Ascii.eqb c "[" then
        match parseFieldTypePrefix rest with
        | Some (t, rest') => Some (FT_Array (mkArrayType t), rest')
        | None => None
        end
      else
        match baseTypeOfLetter c with
        | Some Void => None
        | Some v => Some (FT_Base (mkBaseType v), rest)
        | None => None
        end
  end.

(** Modelled from the spec: [parseFieldType] on a whole string; nothing
    may follow the descriptor. *)
Definition parseFieldType (s : string) : option FieldType :=
  match parseFieldTypePrefix s with
  | Some (t, EmptyString) => Some t
  | _ => None
  end.

(** Modelled from the spec: a return descriptor is [V] or a field type. *)
Definition parseReturnTypePrefix (s : string) : option (FieldType * string) :=
  match StringRef.consume_front "V" s with
  | Some rest => Some (FT_Base (mkBaseType Void), rest)
  | None => parseFieldTypePrefix s
  end.

(** Modelled from the spec: the parameters up to the closing parenthesis.
    Every parameter takes at least one character, so [String.length s]
    rounds are enough for [s]. *)
Fixpoint parseParameters (fuel : nat) (s : string)
  : option (list FieldType * string) :=
  match fuel with
  | 0 => None
  | S fuel' =>
      match StringRef.consume_front ")" s with
      | Some rest => Some ([], rest)
      | None =>
          match parseFieldTypePrefix s with
          | Some (t, rest) =>
              match parseParameters fuel' rest with
              | Some (ts, rest') => Some (t :: ts, rest')
              | None => None
              end
          | None => None
          end
      end
  end.

(** Modelled from the spec: [parseMethodType], declared in
    [Descriptors.hpp] and defined outside the sources. *)
Definition parseMethodType (s : string) : option MethodType :=
  match StringRef.consume_front "(" s with
  | Some rest =>
      match parseParameters (String.length rest) rest with
      | Some (ps, rest') =>
          match parseReturnTypePrefix rest' with
          | Some (r, EmptyString) => Some (mkMethodType ps r)
          | _ => None
          end
      | None => None
      end
  | None => None
  end.

(** The prefixes of the grammars in the header's comments. *)
Definition virtualCallPrefix : string := "Virtual Call to ".
Definition interfaceCallPrefix : string := "Interface Call to ".
Definition specialCallPrefix : string := "Special Call to ".
Definition staticCallPrefix : string := "Static Call to ".
Definition classObjectPrefix : string := "Load ".

Definition methodResolutionPrefix (resolution : MethodResolution) : string :=
  match resolution with
  | Virtual => virtualCallPrefix
  | Interface => interfaceCallPrefix
  | Special => specialCallPrefix
  end.

(** Modelled from the spec: the mangling functions are declared in the
    header and defined outside the sources; each follows the syntax its
    declaration documents.
    [<direct-call> ::= <class-name> '.' <method-name> ':' <descriptor>] *)
Definition mangleDirectMethodCall (className methodName : string)
    (descriptor : MethodType) : string :=
  className ++ "." ++ methodName ++ ":" ++ methodDescriptor descriptor.

(** Modelled from the spec:
    [<field-access> ::= <class-name> '.' <field-name> ':' <descriptor>] *)
Definition mangleFieldAccess (className fieldName : string)
    (descriptor : FieldType) : string :=
  className ++ "." ++ fieldName ++ ":" ++ fieldDescriptor descriptor.

(** Modelled from the spec:
    [<method-resolution-call> ::= <method-resolution> <direct-call>] *)
Definition mangleMethodResolutionCall (resolution : MethodResolution)
    (className methodName : string) (descriptor : MethodType) : string :=
  methodResolutionPrefix resolution
    ++ mangleDirectMethodCall className methodName descriptor.

(** Modelled from the spec:
    [<static-call> ::= 'Static Call to ' <direct-call>] *)
Definition mangleStaticCall (className methodName : string)
    (descriptor : MethodType) : string :=
  staticCallPrefix ++ mangleDirectMethodCall className methodName descriptor.

(** Modelled from the spec:
    [<class-object-access> ::= 'Load ' <descriptor>] *)
Definition mangleClassObjectAccess (descriptor : FieldType) : string :=
  classObjectPrefix ++ fieldDescriptor descriptor.

(** The mangling function that produces each demangled alternative;
    [std::monostate] is produced by none. *)
Definition mangle (x : DemangledVariant) : option string :=
  match x with
  | Monostate => None
  | DemangledFieldAccess c f d => Some (mangleFieldAccess c f d)
  | DemangledMethodResolutionCall r c m d =>
      Some (mangleMethodResolutionCall r c m d)
  | DemangledStaticCall c m d => Some (mangleStaticCall c m d)
  | DemangledClassObject d => Some (mangleClassObjectAccess d)
  end.

(** What precedes the direct call in a symbol. *)
Inductive CallPrefix : Set :=
  | NoPrefix
  | StaticPrefix
  | ResolutionPrefix (resolution : MethodResolution).

Definition callPrefix (kind : CallPrefix) : string :=
  match kind with
  | NoPrefix => ""
  | StaticPrefix => staticCallPrefix
  | ResolutionPrefix resolution => methodResolutionPrefix resolution
  end.

(** Modelled from the spec: the call prefix in front of a symbol, if it
    has one, and what follows it. *)
Definition consumeCallPrefix (symbolName : string) : CallPrefix * string :=
  match StringRef.consume_front staticCallPrefix symbolName with
  | Some rest => (StaticPrefix, rest)
  | None =>
  match StringRef.consume_front virtualCallPrefix symbolName with
  | Some rest => (ResolutionPrefix Virtual, rest)
  | None =>
  match StringRef.consume_front interfaceCallPrefix symbolName with
  | Some rest => (ResolutionPrefix Interface, rest)
  | None =>
  match StringRef.consume_front specialCallPrefix symbolName with
  | Some rest => (ResolutionPrefix Special, rest)
  | None => (NoPrefix, symbolName)
  end end end end.

(** Modelled from the spec: what follows the prefix, in the shape
    [<class-name> '.' <name> ':' <descriptor>]. The class name ends at the
    first ['.'] and the member name at the first [':'] after it; a
    descriptor that starts with ['('] makes a call, which is demangled only
    under a call prefix (a direct call is not), and any other descriptor
    makes a field access. A field access has no prefix of its own: its
    class name is all that stands in front of the first ['.'] of the
    symbol, so a call prefix taken off before is part of it. *)
Definition demangleMember (kind : CallPrefix) (member : string)
  : DemangledVariant :=
  match StringRef.split "." member with
  | None => Monostate
  | Some (className, rest) =>
      match StringRef.split ":" rest with
      | None => Monostate
      | Some (name, descriptor) =>
          if StringRef.starts_with "(" descriptor then
            match parseMethodType descriptor, kind with
            | Some mt, StaticPrefix => DemangledStaticCall className name mt
            | Some mt, ResolutionPrefix resolution =>
                DemangledMethodResolutionCall resolution className name mt
            | _, _ => Monostate
            end
          else
            match parseFieldType descriptor with
            | Some t =>
                DemangledFieldAccess (callPrefix kind ++ className) name t
            | None => Monostate
            end
      end
  end.

(** Modelled from the spec: [demangleStubSymbolName], declared in the
    header and defined outside the sources. A symbol with the [Load ]
    prefix is a class-object load when the rest is a field descriptor;
    any other symbol is read as a member under its call prefix, if it has
    one. Everything that is not recognised is [std::monostate]. *)
Definition demangleStubSymbolName (symbolName : string) : DemangledVariant :=
  match StringRef.consume_front classObjectPrefix symbolName with
  | Some descriptor =>
      match parseFieldType descriptor with
      | Some t => DemangledClassObject t
      | None => Monostate
      end
  | None =>
      let '(kind, member) := consumeCallPrefix symbolName in
      demangleMember kind member
  end.

(** Field types a descriptor can be read back from: no [Void], and no
    [';'] inside a class name. *)
Fixpoint validFieldType (t : FieldType) : bool :=
  match t with
  | FT_Base b => negb (bool_decide (getValue b = Void))
  | FT_Object o => negb (StringRef.contains ";" (className o))
  | FT_Array a => validArrayType a
  end
with validArrayType (a : ArrayType) : bool :=
  match a with
  | mkArrayType c => validFieldType c
  end.

Definition validReturnType (t : FieldType) : bool :=
  match t with
  | FT_Base b => true
  | _ => validFieldType t
  end.

Definition validMethodType (m : MethodType) : bool :=
  forallb validFieldType (parameters m) && validReturnType (returnType m).

(** A class name that does not begin with one of the five prefixes. *)
Definition unprefixed (className : string) : bool :=
  negb (StringRef.starts_with classObjectPrefix className)
  && negb (StringRef.starts_with staticCallPrefix className)
  && negb (StringRef.starts_with virtualCallPrefix className)
  && negb (StringRef.starts_with interfaceCallPrefix className)
  && negb (StringRef.starts_with specialCallPrefix className).

(** Names the separators can be found around: no ['.'] in the class name
    and no [':'] in the member name. *)
Definition separable (className member : string) : bool :=
  negb (StringRef.contains "." className)
  && negb (StringRef.contains ":" member).

(** Requests whose symbol reads back: separable names and a valid
    descriptor; the class name of a field access must not begin with
    [Load ], the prefix of the class-object loads. *)
Definition demanglable (x : DemangledVariant) : bool :=
  match x with
  | Monostate => false
  | DemangledFieldAccess c f d =>
      separable c f
      && negb (StringRef.starts_with classObjectPrefix c)
      && validFieldType d
  | DemangledMethodResolutionCall _ c m d => separable c m && validMethodType d
  | DemangledStaticCall c m d => separable c m && validMethodType d
  | DemangledClassObject d => validFieldType d
  end.

End ClassObjectStubMangling.

(** ** jllvm/materialization/CodeGeneratorUtils.hpp: OperandStack *)

Module CodeGeneratorUtils.

(** An [llvm::AllocaInst*] is the identity of one stack cell of the function
    being built. *)
Definition AllocaInst := nat.

Section OperandStack.

(** [llvm::Value] and [llvm::Type] are opaque here; [getType] is
    [Value::getType()]. [referenceType] stands for
    [referenceType(m_builder.getContext())] of [ByteCodeCompileUtils.hpp],
    which this development takes as a parameter. *)
Context {Value Ty : Type}.
Variable getType : Value -> Ty.
Variable referenceType : Ty.

(** The part of [llvm::IRBuilder<>] the operand stack acts on: how many
    cells were allocated, and what the stores emitted so far leave in each
    cell when the emitted code runs in emission order. *)
Record IRBuilder := mkIRBuilder {
  allocated : nat;
  memory : gmap AllocaInst Value
}.

(** The result of [CreateLoad(type, alloc)]: a load of [alloc] at [type],
    together with what it reads ([None]: the cell was never stored to). *)
Record LoadInst := mkLoadInst {
  getLoadType : Ty;
  getPointerOperand : AllocaInst;
  loadedValue : option Value
}.

Definition CreateAlloca (b : IRBuilder) : AllocaInst * IRBuilder :=
  (allocated b, mkIRBuilder (S (allocated b)) (memory b)).

Definition CreateStore (value : Value) (alloc : AllocaInst) (b : IRBuilder)
  : IRBuilder :=
  mkIRBuilder (allocated b) (<[alloc := value]> (memory b)).

Definition CreateLoad (type : Ty) (alloc : AllocaInst) (b : IRBuilder)
  : LoadInst :=
  mkLoadInst type alloc (memory b !! alloc).

(** [OperandStack::StackState]. An [llvm::Type*] may be null: the
    constructor value-initialises [m_types]. *)
Record StackState := mkStackState {
  state_types : list (option Ty);
  state_topOfStack : nat
}.

(** [class OperandStack]. [m_builder] is a reference in the source; the
    builder's state is threaded through the stack's operations. *)
Record OperandStack := mkOperandStack {
  m_values : list AllocaInst;
  m_types : list (option Ty);
  m_builder : IRBuilder;
  m_topOfStack : nat
}.

(** Member functions run in a state monad over the object; [None] is
    undefined behaviour. *)
Definition M (A : Type) : Type := OperandStack -> option (A * OperandStack).

#[global] Instance M_ret : MRet M := fun A a s => Some (a, s).

#[global] Instance M_bind : MBind M := fun A B k m s =>
  match m s with
  | Some (a, s') => k a s'
  | None => None
  end.

Definition undefined {A} : M A := fun _ => None.

Definition gets {A} (f : OperandStack -> A) : M A := fun s => Some (f s, s).

Definition modify (f : OperandStack -> OperandStack) : M unit :=
  fun s => Some (tt, f s).

(** [std::vector::operator[]]: defined for an index below [size()] only. *)
Definition at_index {A} (v : list A) (i : nat) : M A :=
  match v !! i with
  | Some x => mret x
  | None => undefined
  end.

(** A type handed to [CreateLoad] must not be null. *)
Definition non_null {A} (p : option A) : M A :=
  match p with
  | Some x => mret x
  | None => undefined
  end.

Definition set_topOfStack (top : nat) (s : OperandStack) : OperandStack :=
  mkOperandStack (m_values s) (m_types s) (m_builder s) top.

Definition set_types (types : list (option Ty)) (s : OperandStack)
  : OperandStack :=
  mkOperandStack (m_values s) types (m_builder s) (m_topOfStack s).

Definition set_builder (b : IRBuilder) (s : OperandStack) : OperandStack :=
  mkOperandStack (m_values s) (m_types s) b (m_topOfStack s).

(** [std::generate(first, last, gen)] over a vector of [n] elements. *)
Fixpoint generate (n : nat) (b : IRBuilder) : list AllocaInst * IRBuilder :=
  match n with
  | 0 => ([], b)
  | S n' =>
      let '(alloc, b1) := CreateAlloca b in
      let '(rest, b2) := generate n' b1 in
      (alloc :: rest, b2)
  end.

(** [OperandStack(builder, maxStack)]: [maxStack] cells, [maxStack] null
    types, top of stack 0. *)
Definition OperandStack_new (builder : IRBuilder) (maxStack : nat)
  : OperandStack :=
  let '(values, builder') := generate maxStack builder in
  mkOperandStack values (replicate maxStack None) builder' 0.

(** [--m_topOfStack] on 0 wraps around to [SIZE_MAX], which no vector can
    hold as an index: the subscript that follows is undefined. *)
Definition pre_decrement_topOfStack : M nat :=
  top ← gets m_topOfStack;
  match top with
  | 0 => undefined
  | S top' => modify (set_topOfStack top');; mret top'
  end.

Definition pop_back_with_type : M (LoadInst * Ty) :=
  top ← pre_decrement_topOfStack;
  values ← gets m_values;
  alloc ← at_index values top;
  types ← gets m_types;
  type ← at_index types top;
  type ← non_null type;
  b ← gets m_builder;
  mret (CreateLoad type alloc b, type).

Definition pop_back : M LoadInst :=
  top ← pre_decrement_topOfStack;
  values ← gets m_values;
  alloc ← at_index values top;
  types ← gets m_types;
  type ← at_index types top;
  type ← non_null type;
  b ← gets m_builder;
  mret (CreateLoad type alloc b).

Definition push_back (value : Value) : M unit :=
  top ← gets m_topOfStack;
  values ← gets m_values;
  alloc ← at_index values top;
  types ← gets m_types;
  _ ← at_index types top;
  modify (set_types (<[top := Some (getType value)]> types));;
  modify (set_topOfStack (S top));;
  b ← gets m_builder;
  modify (set_builder (CreateStore value alloc b)).

Definition saveState (s : OperandStack) : StackState :=
  mkStackState (m_types s) (m_topOfStack s).

Definition restoreState (state : StackState) : M unit :=
  modify (set_types (state_types state));;
  modify (set_topOfStack (state_topOfStack state)).

Definition getHandlerState (s : OperandStack) : StackState :=
  mkStackState [Some referenceType] 1.

(** [front()] of an empty vector is undefined. *)
Definition setHandlerStack (value : Value) : M unit :=
  values ← gets m_values;
  alloc ← at_index values 0;
  types ← gets m_types;
  _ ← at_index types 0;
  modify (set_types (<[0 := Some (getType value)]> types));;
  b ← gets m_builder;
  modify (set_builder (CreateStore value alloc b)).

(** Sequences of calls. *)
Fixpoint push_all (values : list Value) : M unit :=
  match values with
  | [] => mret tt
  | v :: rest => push_back v;; push_all rest
  end.

Fixpoint pop_n (n : nat) : M (list LoadInst) :=
  match n with
  | 0 => mret []
  | S n' => l ← pop_back; ls ← pop_n n'; mret (l :: ls)
  end.

(** Cells above the top that have both a storage cell and a type entry. *)
Definition remainingCapacity (s : OperandStack) : nat :=
  (length (m_values s) `min` length (m_types s)) - m_topOfStack s.

(** What a load shows: the type it loads at and the value it reads. *)
Definition view (l : LoadInst) : Ty * option Value :=
  (getLoadType l, loadedValue l).

(** Slot [i] holds [v]: the slot has a cell, the cell's last store is [v],
    and the recorded type is the type of [v]. *)
Definition holds (s : OperandStack) (i : nat) (v : Value) : Prop :=
  exists alloc,
    m_values s !! i = Some alloc
    /\ m_types s !! i = Some (Some (getType v))
    /\ memory (m_builder s) !! alloc = Some v.

(** Scenario 5 of the specification: two pushes, a saved state, two pops,
    the state restored, one more pop; the three loads are returned. *)
Definition save_restore_scenario (v1 v2 : Value)
  : M (LoadInst * LoadInst * LoadInst) :=
  push_back v1;;
  push_back v2;;
  saved ← gets saveState;
  l1 ← pop_back;
  l2 ← pop_back;
  restoreState saved;;
  l3 ← pop_back;
  mret (l1, l2, l3).

(** A handler entry: the handler state restored, then one push. *)
Definition enter_handler_and_push (v : Value) : M unit :=
  state ← gets getHandlerState;
  restoreState state;;
  push_back v.

End OperandStack.

(** An instance of the parameters for examples: 32-bit integer constants
    and references to objects. *)
Inductive SampleType : Set := i32 | reference.

Inductive SampleValue : Set :=
  | ConstantInt (n : Z)
  | Reference (name : string).

Definition sampleTypeOf (v : SampleValue) : SampleType :=
  match v with
  | ConstantInt _ => i32
  | Reference _ => reference
  end.

Definition emptyBuilder : @IRBuilder SampleValue := mkIRBuilder 0 ∅.

End CodeGeneratorUtils.

(** * Properties of the descriptors *)

Module DescriptorsProperties.
Import Descriptors.

Scheme FieldType_mutual := Induction for FieldType Sort Prop
  with ArrayType_mutual := Induction for ArrayType Sort Prop.

Lemma BaseType_eq_true (l r : BaseType) :
  BaseType_eq l r = true <-> getValue l = getValue r.
Proof. unfold BaseType_eq. apply bool_decide_eq_true. Qed.

Lemma BaseType_eq_leibniz (l r : BaseType) :
  BaseType_eq l r = true <-> l = r.
Proof.
  rewrite BaseType_eq_true. destruct l as [vl], r as [vr]; simpl.
  split; [intros -> | intros [= ->]]; reflexivity.
Qed.

Lemma ObjectType_eq_true (l r : ObjectType) :
  ObjectType_eq l r = true <-> className l = className r.
Proof. unfold ObjectType_eq, StringRef.equals. apply String.eqb_eq. Qed.

Lemma ObjectType_eq_leibniz (l r : ObjectType) :
  ObjectType_eq l r = true <-> l = r.
Proof.
  rewrite ObjectType_eq_true. destruct l as [nl], r as [nr]; simpl.
  split; [intros -> | intros [= ->]]; reflexivity.
Qed.

Lemma ArrayType_eq_components (l r : ArrayType) :
  ArrayType_eq l r = FieldType_eq (componentType l) (componentType r).
Proof. destruct l, r; reflexivity. Qed.

(** The variant's comparison decides equality of the values: by mutual
    induction on the left operand. *)
Lemma FieldType_eq_leibniz (l : FieldType) :
  forall r, FieldType_eq l r = true <-> l = r.
Proof.
  induction l using FieldType_mutual
    with (P0 := fun a => forall a', ArrayType_eq a a' = true <-> a = a').
  - intros [b'|o'|a']; simpl; try (split; discriminate).
    rewrite BaseType_eq_leibniz. split; [intros -> | intros [= ->]]; reflexivity.
  - intros [b'|o'|a']; simpl; try (split; discriminate).
    rewrite ObjectType_eq_leibniz. split; [intros -> | intros [= ->]]; reflexivity.
  - intros [b'|o'|a']; simpl; try (split; discriminate).
    rewrite IHl. split; [intros -> | intros [= ->]]; reflexivity.
  - intros [c']; simpl.
    rewrite IHl. split; [intros -> | intros [= ->]]; reflexivity.
Qed.

(** C7. [isIntegerType] is true exactly on Boolean, Byte, Char, Short, Int
    and Long, so it is false on Float, Double and Void; [isUnsigned] is true
    exactly on Char and Boolean. *)
Theorem base_type_classification (b : BaseType) :
  (isIntegerType b = true
     <-> In (getValue b) [Boolean; Byte; Char; Short; Int; Long])
  /\ (isIntegerType b = false <-> In (getValue b) [Float; Double; Void])
  /\ (isUnsigned b = true <-> In (getValue b) [Char; Boolean]).
Proof.
  destruct b as [v]; unfold isIntegerType, isUnsigned; simpl.
  destruct v; simpl; repeat split; intros H;
    solve [ reflexivity | discriminate | tauto
          | intuition discriminate ].
Qed.

(** C8. Equality of field types is structural: base types compare by their
    enum value, object types by their class name, two array types are
    equal exactly when their components are, and so the comparison of two
    field types holds exactly when they are the same type. *)
Theorem field_type_equality_structural :
  (forall l r : BaseType,
      BaseType_eq l r = true <-> getValue l = getValue r)
  /\ (forall l r : ObjectType,
      ObjectType_eq l r = true <-> className l = className r)
  /\ (forall l r : ArrayType,
      ArrayType_eq l r = true
        <-> FieldType_eq (componentType l) (componentType r) = true)
  /\ (forall l r : FieldType, FieldType_eq l r = true <-> l = r)
  /\ (forall l r : ArrayType, FT_Array l = FT_Array r
        <-> componentType l = componentType r).
Proof.
  split; [exact BaseType_eq_true |].
  split; [exact ObjectType_eq_true |].
  split; [intros l r; rewrite ArrayType_eq_components; reflexivity |].
  split; [exact FieldType_eq_leibniz |].
  intros [cl] [cr]; simpl. split; [intros [= ->] | intros ->]; reflexivity.
Qed.

(** C6, as the code has it: on a non-empty string [isReferenceDescriptor]
    returns a value, which is true exactly when the first character is
    ['L'] or ['[']. *)
Theorem isReferenceDescriptor_nonempty (s : string) (Hs : s <> EmptyString) :
  exists b, isReferenceDescriptor s = Some b
    /\ (b = true <-> exists rest,
          s = String "L" rest \/ s = String "[" rest).
Proof.
  destruct s as [|c rest]; [congruence |].
  unfold isReferenceDescriptor; simpl.
  destruct (Ascii.eqb c "L") eqn:HL.
  - apply Ascii.eqb_eq in HL; subst c.
    exists true. split; [reflexivity |]. split; [eauto | reflexivity].
  - exists (Ascii.eqb c "["). split; [reflexivity |].
    rewrite Ascii.eqb_eq. split.
    + intros ->. eauto.
    + intros [rest' [[= -> _] | [= -> _]]]; [discriminate HL | reflexivity].
Qed.

Lemma isReferenceDescriptor_nonempty_witness :
  "[I"%string <> EmptyString
  /\ exists b, isReferenceDescriptor "[I" = Some b
       /\ (b = true <-> exists rest,
             "[I"%string = String "L" rest \/ "[I"%string = String "[" rest).
Proof.
  split; [discriminate |].
  apply (isReferenceDescriptor_nonempty "[I"). discriminate.
Defined.

(** C6 on the empty string: [front()] has no character to return, so the
    call has no result, and in particular does not return false. *)
Lemma isReferenceDescriptor_empty :
  isReferenceDescriptor EmptyString = None
  /\ isReferenceDescriptor EmptyString <> Some false.
Proof. split; [reflexivity | discriminate]. Qed.

End DescriptorsProperties.

(** * Properties of the operand stack *)

Module OperandStackProperties.
Import CodeGeneratorUtils.

Section Properties.

Context {Value Ty : Type}.
Variable getType : Value -> Ty.
Variable referenceType : Ty.

#[local] Abbreviation Stack := (@OperandStack Value Ty).
#[local] Abbreviation holds := (CodeGeneratorUtils.holds getType).

Ltac run :=
  unfold push_back, pop_back, pop_back_with_type, pre_decrement_topOfStack,
    setHandlerStack, restoreState, mbind, M_bind, mret, M_ret, gets, modify,
    at_index, non_null, undefined; simpl.

(** ** One call *)

Lemma push_back_run (v : Value) (s : Stack) (alloc : AllocaInst) :
  m_values s !! m_topOfStack s = Some alloc ->
  m_topOfStack s < length (m_types s) ->
  push_back getType v s
  = Some (tt, mkOperandStack (m_values s)
                (<[m_topOfStack s := Some (getType v)]> (m_types s))
                (CreateStore v alloc (m_builder s))
                (S (m_topOfStack s))).
Proof.
  intros Hv Ht. apply lookup_lt_is_Some_2 in Ht as [ty Hty].
  run. rewrite Hv; simpl. rewrite Hty; simpl. reflexivity.
Qed.

Lemma push_back_undefined (v : Value) (s : Stack) :
  length (m_types s) <= m_topOfStack s -> push_back getType v s = None.
Proof.
  intros Ht. apply lookup_ge_None_2 in Ht.
  run. destruct (m_values s !! m_topOfStack s); simpl; [| reflexivity].
  rewrite Ht. reflexivity.
Qed.

Lemma pop_back_run (s : Stack) (top : nat) (alloc : AllocaInst) (ty : Ty) :
  m_topOfStack s = S top ->
  m_values s !! top = Some alloc ->
  m_types s !! top = Some (Some ty) ->
  pop_back s
  = Some (CreateLoad ty alloc (m_builder s), set_topOfStack top s).
Proof.
  intros Htop Hv Ht. run. rewrite Htop; simpl.
  rewrite Hv; simpl. rewrite Ht; simpl. reflexivity.
Qed.

Lemma pop_back_with_type_eq (s : Stack) :
  pop_back_with_type s
  = match pop_back s with
    | Some (l, s') => Some ((l, getLoadType l), s')
    | None => None
    end.
Proof.
  run. destruct (m_topOfStack s) as [|top]; simpl; [reflexivity |].
  destruct (m_values s !! top); simpl; [| reflexivity].
  destruct (m_types s !! top) as [[ty|]|]; reflexivity.
Qed.

Lemma pop_back_holds (s : Stack) (top : nat) (v : Value) :
  m_topOfStack s = S top ->
  holds s top v ->
  exists l, pop_back s = Some (l, set_topOfStack top s)
            /\ view l = (getType v, Some v).
Proof.
  intros Htop (alloc & Hv & Ht & Hm).
  exists (CreateLoad (getType v) alloc (m_builder s)). split.
  - apply pop_back_run; assumption.
  - unfold view, CreateLoad; simpl. rewrite Hm. reflexivity.
Qed.

Lemma holds_set_topOfStack (s : Stack) (top i : nat) (v : Value) :
  holds s i v -> holds (set_topOfStack top s) i v.
Proof. intros H. exact H. Qed.

(** ** The constructor *)

Lemma generate_seq (n : nat) (b : @IRBuilder Value) :
  generate n b
  = (seq (allocated b) n, mkIRBuilder (allocated b + n) (memory b)).
Proof.
  revert b. induction n as [|n IH]; intros b; simpl.
  - destruct b; simpl. rewrite Nat.add_0_r. reflexivity.
  - rewrite IH; simpl. do 2 f_equal. lia.
Qed.

Lemma OperandStack_new_eq (b : @IRBuilder Value) (maxStack : nat) :
  OperandStack_new (Ty := Ty) b maxStack
  = mkOperandStack (seq (allocated b) maxStack) (replicate maxStack None)
      (mkIRBuilder (allocated b + maxStack) (memory b)) 0.
Proof. unfold OperandStack_new. rewrite generate_seq. reflexivity. Qed.

Lemma OperandStack_new_NoDup (b : @IRBuilder Value) (maxStack : nat) :
  NoDup (m_values (OperandStack_new (Ty := Ty) b maxStack)).
Proof. rewrite OperandStack_new_eq; simpl. apply NoDup_seq. Qed.

(** ** Pushing a list of values *)

Lemma push_all_holds (vs : list Value) :
  forall s : Stack,
    NoDup (m_values s) ->
    m_topOfStack s + length vs <= length (m_values s) ->
    m_topOfStack s + length vs <= length (m_types s) ->
    exists s',
      push_all getType vs s = Some (tt, s')
      /\ m_values s' = m_values s
      /\ m_topOfStack s' = m_topOfStack s + length vs
      /\ length (m_types s') = length (m_types s)
      /\ (forall i v, vs !! i = Some v -> holds s' (m_topOfStack s + i) v)
      /\ (forall j, j < m_topOfStack s ->
            m_types s' !! j = m_types s !! j
            /\ forall alloc, m_values s !! j = Some alloc ->
                 memory (m_builder s') !! alloc
                 = memory (m_builder s) !! alloc).
Proof.
  induction vs as [|v vs IH]; intros s Hnd Hvals Htys; simpl in *.
  - exists s. unfold mret, M_ret. rewrite Nat.add_0_r.
    repeat split; try reflexivity. intros i v Hi. discriminate Hi.
  - destruct (lookup_lt_is_Some_2 (m_values s) (m_topOfStack s))
      as [alloc Halloc]; [lia |].
    unfold mbind, M_bind.
    rewrite (push_back_run v s alloc Halloc) by lia.
    set (s1 := mkOperandStack _ _ _ _).
    destruct (IH s1) as (s' & Hrun & Hv' & Htop' & Hlen' & Hholds & Hframe).
    { exact Hnd. }
    { subst s1; simpl. lia. }
    { subst s1; simpl. rewrite length_insert. lia. }
    exists s'. subst s1; simpl in *.
    split; [exact Hrun |]. split; [exact Hv' |]. split; [lia |].
    split; [rewrite Hlen', length_insert; reflexivity |].
    split.
    + intros [|i] v' Hi; simpl in Hi.
      * injection Hi as <-. rewrite Nat.add_0_r.
        destruct (Hframe (m_topOfStack s)) as [Hty Hmem]; [lia |].
        exists alloc. split; [rewrite Hv'; exact Halloc |]. split.
        -- rewrite Hty. apply list_lookup_insert_eq. lia.
        -- rewrite (Hmem alloc Halloc). apply lookup_insert_eq.
      * replace (m_topOfStack s + S i) with (S (m_topOfStack s) + i) by lia.
        apply Hholds. exact Hi.
    + intros j Hj. destruct (Hframe j) as [Hty Hmem]; [lia |]. split.
      * rewrite Hty. apply list_lookup_insert_ne. lia.
      * intros alloc' Halloc'. rewrite (Hmem alloc' Halloc').
        apply lookup_insert_ne. intros ->.
        assert (m_topOfStack s = j)
          by (eapply NoDup_lookup; eassumption).
        lia.
Qed.

(** ** Popping them again *)

Lemma pop_n_holds (vs : list Value) :
  forall (s : Stack) (base : nat),
    m_topOfStack s = base + length vs ->
    (forall i v, vs !! i = Some v -> holds s (base + i) v) ->
    exists loads,
      pop_n (length vs) s = Some (loads, set_topOfStack base s)
      /\ view <$> loads = (fun v => (getType v, Some v)) <$> rev vs.
Proof.
  induction vs as [|v vs IH] using rev_ind; intros s base Htop Hholds.
  - exists []. simpl in *. split; [| reflexivity].
    unfold mret, M_ret. f_equal. f_equal.
    destruct s; unfold set_topOfStack; simpl in *. f_equal. lia.
  - rewrite length_app in *; simpl in *.
    replace (length vs + 1) with (S (length vs)) in * by lia.
    destruct (pop_back_holds s (base + length vs) v) as (l & Hpop & Hview).
    { lia. }
    { apply Hholds. rewrite lookup_app_r by lia.
      rewrite Nat.sub_diag. reflexivity. }
    destruct (IH (set_topOfStack (base + length vs) s) base)
      as (loads & Hrun & Hviews).
    { reflexivity. }
    { intros i v' Hi. apply holds_set_topOfStack. apply Hholds.
      rewrite lookup_app_l; [exact Hi |].
      apply lookup_lt_Some in Hi. exact Hi. }
    exists (l :: loads). split.
    + simpl. unfold mbind, M_bind at 1. rewrite Hpop.
      unfold mbind, M_bind at 1. rewrite Hrun. reflexivity.
    + rewrite rev_unit, !fmap_cons, Hview, Hviews. reflexivity.
Qed.

(** ** The claims *)

(** On a stack whose cells are distinct, pushing [v1 ... vn] with [n] at
    most the number of slots above the top that have both a cell and a
    type entry, and then popping [n] times succeeds, and
    the loads show [vn ... v1], each at the type of the value pushed; the
    top of stack is back where it was. *)
Theorem push_all_pop_n_lifo (s : Stack) (vs : list Value) :
  NoDup (m_values s) ->
  length vs <= remainingCapacity s ->
  exists loads s',
    (push_all getType vs;; pop_n (length vs)) s = Some (loads, s')
    /\ view <$> loads = (fun v => (getType v, Some v)) <$> rev vs
    /\ m_topOfStack s' = m_topOfStack s.
Proof.
  intros Hnd Hcap. unfold remainingCapacity in Hcap.
  destruct vs as [|v0 vs0] eqn:Hvs.
  { exists [], s. repeat split; reflexivity. }
  rewrite <- Hvs in *. assert (0 < length vs) by (subst vs; simpl; lia).
  destruct (push_all_holds vs s) as (s1 & Hpush & _ & Htop & _ & Hholds & _);
    [exact Hnd | lia | lia |].
  destruct (pop_n_holds vs s1 (m_topOfStack s) Htop Hholds)
    as (loads & Hpop & Hviews).
  exists loads, (set_topOfStack (m_topOfStack s) s1).
  split; [| split; [exact Hviews | reflexivity]].
  unfold mbind, M_bind. rewrite Hpush. exact Hpop.
Qed.

(** C4. Restoring a saved state puts back the saved types and top of
    stack and leaves the cells and what they store alone; in the scenario
    on three slots the two pops after the save show the second and the
    first value, and the pop after the restore shows the second again. *)
Theorem saveState_restoreState :
  (forall s s' : Stack,
      restoreState (saveState s) s'
      = Some (tt, mkOperandStack (m_values s') (m_types s) (m_builder s')
                    (m_topOfStack s)))
  /\ (forall (b : @IRBuilder Value) (v1 v2 : Value),
      exists l1 l2 l3 s',
        save_restore_scenario getType v1 v2 (OperandStack_new (Ty := Ty) b 3)
        = Some ((l1, l2, l3), s')
        /\ view l1 = (getType v2, Some v2)
        /\ view l2 = (getType v1, Some v1)
        /\ view l3 = (getType v2, Some v2)).
Proof.
  split; [reflexivity |].
  intros b v1 v2. rewrite OperandStack_new_eq.
  unfold save_restore_scenario. run.
  do 4 eexists. split; [reflexivity |]. unfold view; simpl.
  rewrite lookup_insert_eq.
  rewrite lookup_insert_ne by lia. rewrite lookup_insert_eq.
  repeat split.
Qed.

(** C5. Whatever the stack, the handler state is one reference-typed slot
    with top of stack 1. *)
Theorem getHandlerState_canonical (s : Stack) :
  getHandlerState referenceType s = mkStackState [Some referenceType] 1
  /\ state_types (getHandlerState referenceType s) = [Some referenceType]
  /\ state_topOfStack (getHandlerState referenceType s) = 1.
Proof. repeat split. Qed.

(** No member function changes [m_values]: the cells the constructor
    allocated stay the stack's cells, and stay distinct. *)
Lemma m_values_kept (s s' : Stack) :
  (forall v, push_back getType v s = Some (tt, s') ->
       m_values s' = m_values s)
  /\ (forall l, pop_back s = Some (l, s') -> m_values s' = m_values s)
  /\ (forall v, setHandlerStack getType v s = Some (tt, s') ->
       m_values s' = m_values s)
  /\ (forall state, restoreState state s = Some (tt, s') ->
       m_values s' = m_values s).
Proof.
  repeat split.
  - intros v. run.
    destruct (m_values s !! m_topOfStack s); simpl; [| discriminate].
    destruct (m_types s !! m_topOfStack s); simpl; [| discriminate].
    intros [= <-]; reflexivity.
  - intros l. run.
    destruct (m_topOfStack s) as [|top]; simpl; [discriminate |].
    destruct (m_values s !! top); simpl; [| discriminate].
    destruct (m_types s !! top) as [[ty|]|]; simpl; try discriminate.
    intros [= _ <-]; reflexivity.
  - intros v. run.
    destruct (m_values s !! 0); simpl; [| discriminate].
    destruct (m_types s !! 0); simpl; [| discriminate].
    intros [= <-]; reflexivity.
  - intros state. run. intros [= <-]; reflexivity.
Qed.

(** A pop on the empty stack is undefined. *)
Lemma pop_back_empty (s : Stack) :
  m_topOfStack s = 0 -> pop_back s = None.
Proof. intros H. run. rewrite H. reflexivity. Qed.

(** Where the length of [m_types] is kept: pushes, pops, [setHandlerStack]
    and the restore of a state saved from a stack of the same length. *)
Lemma m_types_length_kept (s s' : Stack) :
  (forall v, push_back getType v s = Some (tt, s') ->
       length (m_types s') = length (m_types s))
  /\ (forall l, pop_back s = Some (l, s') ->
       length (m_types s') = length (m_types s))
  /\ (forall v, setHandlerStack getType v s = Some (tt, s') ->
       length (m_types s') = length (m_types s))
  /\ (forall s0 : Stack,
       length (m_types s0) = length (m_types s) ->
       restoreState (saveState s0) s = Some (tt, s') ->
       length (m_types s') = length (m_types s)).
Proof.
  repeat split.
  - intros v. run.
    destruct (m_values s !! m_topOfStack s); simpl; [| discriminate].
    destruct (m_types s !! m_topOfStack s); simpl; [| discriminate].
    intros [= <-]; simpl. apply length_insert.
  - intros l. run.
    destruct (m_topOfStack s) as [|top]; simpl; [discriminate |].
    destruct (m_values s !! top); simpl; [| discriminate].
    destruct (m_types s !! top) as [[ty|]|]; simpl; try discriminate.
    intros [= _ <-]; reflexivity.
  - intros v. run.
    destruct (m_values s !! 0); simpl; [| discriminate].
    destruct (m_types s !! 0); simpl; [| discriminate].
    intros [= <-]; simpl. apply length_insert.
  - intros s0 Hlen. run. intros [= <-]; simpl. exact Hlen.
Qed.

(** C9 fails on the code. On a stack built for two slots, restoring the
    handler state leaves [m_types] with one entry and the top of stack at
    1, below the two cells of [m_values]; the push that follows indexes
    [m_types] past its end. *)
Theorem handler_state_shrinks_m_types (b : @IRBuilder Value) (v : Value) :
  length (m_types (OperandStack_new (Ty := Ty) b 2)) = 2
  /\ (exists s1,
        (state ← gets (getHandlerState referenceType); restoreState state)
          (OperandStack_new b 2) = Some (tt, s1)
        /\ length (m_values s1) = 2
        /\ length (m_types s1) = 1
        /\ m_topOfStack s1 = 1
        /\ push_back getType v s1 = None)
  /\ enter_handler_and_push getType referenceType v (OperandStack_new b 2)
     = None.
Proof.
  rewrite OperandStack_new_eq. split; [reflexivity |]. split.
  - eexists. split; [reflexivity |]. simpl. repeat split.
  - reflexivity.
Qed.

(** C3 fails on the code. After the handler state is restored on a stack
    built for two slots the top of stack is 1 and one of the two cells is
    free, so one push is within the remaining capacity; but [m_types] has
    a single entry, the push indexes it past its end, and the push and the
    pop that follows have no result. *)
Theorem push_pop_after_handler_state (b : @IRBuilder Value) (v : Value) :
  exists s1,
    (state ← gets (getHandlerState referenceType); restoreState state)
      (OperandStack_new b 2) = Some (tt, s1)
    /\ length (m_values s1) = 2
    /\ m_topOfStack s1 = 1
    /\ length (m_values s1) - m_topOfStack s1 = 1
    /\ (push_all getType [v];; pop_n 1) s1 = None.
Proof.
  rewrite OperandStack_new_eq.
  eexists. split; [reflexivity |]. simpl. repeat split.
Qed.

(** C10. On a stack whose cells are distinct and which has a slot 0,
    [setHandlerStack v] succeeds; afterwards slot 0's cell stores [v] and
    its recorded type is the type of [v], while the cells, the top of
    stack, and the recorded type and the stored value of every other slot
    are as before. *)
Theorem setHandlerStack_frame (v : Value) (s : Stack) (alloc : AllocaInst) :
  NoDup (m_values s) ->
  m_values s !! 0 = Some alloc ->
  0 < length (m_types s) ->
  exists s',
    setHandlerStack getType v s = Some (tt, s')
    /\ memory (m_builder s') !! alloc = Some v
    /\ m_types s' !! 0 = Some (Some (getType v))
    /\ m_topOfStack s' = m_topOfStack s
    /\ m_values s' = m_values s
    /\ allocated (m_builder s') = allocated (m_builder s)
    /\ (forall i, i <> 0 -> m_types s' !! i = m_types s !! i)
    /\ (forall i alloc', i <> 0 -> m_values s !! i = Some alloc' ->
          memory (m_builder s') !! alloc'
          = memory (m_builder s) !! alloc').
Proof.
  intros Hnd Halloc Hlen.
  destruct (lookup_lt_is_Some_2 (m_types s) 0 Hlen) as [ty Hty].
  eexists. split.
  { run. rewrite Halloc; simpl. rewrite Hty; simpl. reflexivity. }
  simpl. split; [apply lookup_insert_eq |].
  split; [apply list_lookup_insert_eq; exact Hlen |].
  do 3 (split; [reflexivity |]). split.
  - intros i Hi. apply list_lookup_insert_ne. congruence.
  - intros i alloc' Hi Halloc'. apply lookup_insert_ne. intros ->.
    apply Hi. eapply NoDup_lookup; eassumption.
Qed.

End Properties.

(** ** The claims at the sample instance *)

Lemma push_all_pop_n_lifo_witness :
  let s := OperandStack_new emptyBuilder 3 in
  let vs := [ConstantInt 7; Reference "r"] in
  NoDup (m_values (Ty := SampleType) s)
  /\ length vs <= remainingCapacity s
  /\ exists loads s',
       (push_all sampleTypeOf vs;; pop_n (length vs)) s = Some (loads, s')
       /\ view <$> loads = (fun v => (sampleTypeOf v, Some v)) <$> rev vs
       /\ m_topOfStack s' = m_topOfStack s.
Proof.
  assert (Hnd : NoDup (m_values (Ty := SampleType)
                         (OperandStack_new emptyBuilder 3)))
    by (vm_compute; apply (NoDup_seq 0 3)).
  assert (Hcap : length [ConstantInt 7; Reference "r"]
                 <= remainingCapacity (Ty := SampleType)
                      (OperandStack_new emptyBuilder 3))
    by (vm_compute; lia).
  split; [exact Hnd |]. split; [exact Hcap |].
  exact (push_all_pop_n_lifo sampleTypeOf _ _ Hnd Hcap).
Defined.

Lemma saveState_restoreState_witness :
  exists l1 l2 l3 s',
    save_restore_scenario sampleTypeOf (ConstantInt 7) (Reference "r")
      (OperandStack_new emptyBuilder 3)
    = Some ((l1, l2, l3), s')
    /\ view l1 = (reference, Some (Reference "r"))
    /\ view l2 = (i32, Some (ConstantInt 7))
    /\ view l3 = (reference, Some (Reference "r")).
Proof.
  exact (proj2 (saveState_restoreState sampleTypeOf) emptyBuilder
           (ConstantInt 7) (Reference "r")).
Defined.

Lemma setHandlerStack_frame_witness :
  let s := OperandStack_new (Ty := SampleType) emptyBuilder 3 in
  let v := Reference "exception" in
  NoDup (m_values s)
  /\ m_values s !! 0 = Some 0
  /\ 0 < length (m_types s)
  /\ exists s',
       setHandlerStack sampleTypeOf v s = Some (tt, s')
       /\ memory (m_builder s') !! 0 = Some v
       /\ m_types s' !! 0 = Some (Some (sampleTypeOf v))
       /\ m_topOfStack s' = m_topOfStack s
       /\ m_values s' = m_values s
       /\ allocated (m_builder s') = allocated (m_builder s)
       /\ (forall i, i <> 0 -> m_types s' !! i = m_types s !! i)
       /\ (forall i alloc', i <> 0 -> m_values s !! i = Some alloc' ->
             memory (m_builder s') !! alloc'
             = memory (m_builder s) !! alloc').
Proof.
  assert (Hnd : NoDup (m_values (Ty := SampleType)
                         (OperandStack_new emptyBuilder 3)))
    by (vm_compute; apply (NoDup_seq 0 3)).
  assert (Halloc : m_values (Ty := SampleType)
                     (OperandStack_new emptyBuilder 3) !! 0 = Some 0)
    by reflexivity.
  assert (Hlen : 0 < length (m_types (Ty := SampleType)
                               (OperandStack_new emptyBuilder 3)))
    by (vm_compute; lia).
  split; [exact Hnd |]. split; [exact Halloc |]. split; [exact Hlen |].
  exact (setHandlerStack_frame sampleTypeOf (Reference "exception") _ 0
           Hnd Halloc Hlen).
Defined.

End OperandStackProperties.

(** * Properties of the stub mangling *)

Module ManglingProperties.
Import Descriptors ClassObjectStubMangling.

Local Open Scope string_scope.

#[local] Arguments String.append !_ _ / : simpl nomatch.

(** ** Strings *)

Lemma append_assoc (a b c : string) : (a ++ b) ++ c = a ++ (b ++ c).
Proof. induction a as [|x a IH]; simpl; [reflexivity | now rewrite IH]. Qed.

Lemma length_append (a b : string) :
  String.length (a ++ b) = String.length a + String.length b.
Proof. induction a as [|x a IH]; simpl; [reflexivity | now rewrite IH]. Qed.

Lemma consume_front_append (p s : string) :
  StringRef.consume_front p (p ++ s) = Some s.
Proof.
  induction p as [|c p IH]; simpl; [reflexivity |].
  rewrite Ascii.eqb_refl. exact IH.
Qed.

Lemma consume_front_sound (p s r : string) :
  StringRef.consume_front p s = Some r -> s = p ++ r.
Proof.
  revert s. induction p as [|c p IH]; intros s; simpl.
  - intros [= ->]. reflexivity.
  - destruct s as [|x s]; [discriminate |].
    destruct (Ascii.eqb x c) eqn:Hx; [| discriminate].
    apply Ascii.eqb_eq in Hx; subst x. intros H. now rewrite (IH _ H).
Qed.

(** A prefix without the separator is found in front of [c ++ sep ++ r]
    only when it is in front of [c]. *)
Lemma starts_with_before_separator (sep : ascii) (p c r : string) :
  StringRef.contains sep p = false ->
  StringRef.starts_with p c = false ->
  StringRef.consume_front p (c ++ String sep r) = None.
Proof.
  unfold StringRef.starts_with. revert c.
  induction p as [|x p IH]; intros c; simpl; [discriminate |].
  intros Hp Hc. apply orb_false_iff in Hp as [Hx Hp].
  destruct c as [|y c]; simpl.
  - rewrite Ascii.eqb_sym, Hx. reflexivity.
  - destruct (Ascii.eqb y x); [| reflexivity]. now apply IH.
Qed.

Lemma split_append (sep : ascii) (l r : string) :
  StringRef.contains sep l = false ->
  StringRef.split sep (l ++ String sep r) = Some (l, r).
Proof.
  induction l as [|c l IH]; simpl.
  - intros _. rewrite Ascii.eqb_refl. reflexivity.
  - intros H. apply orb_false_iff in H as [Hc Hl].
    rewrite Hc, (IH Hl). reflexivity.
Qed.

Lemma split_sound (sep : ascii) (s l r : string) :
  StringRef.split sep s = Some (l, r) -> s = l ++ String sep r.
Proof.
  revert l. induction s as [|c s IH]; intros l; simpl; [discriminate |].
  destruct (Ascii.eqb c sep) eqn:Hc.
  - apply Ascii.eqb_eq in Hc; subst c. intros [= <- <-]. reflexivity.
  - destruct (StringRef.split sep s) as [[l' r']|]; [| discriminate].
    intros [= <- <-]. simpl. now rewrite (IH l').
Qed.

(** ** Descriptors are read back *)

Lemma parseFieldTypePrefix_descriptor (t : FieldType) :
  forall rest,
    validFieldType t = true ->
    parseFieldTypePrefix (fieldDescriptor t ++ rest) = Some (t, rest).
Proof.
  induction t using DescriptorsProperties.FieldType_mutual
    with (P0 := fun a => forall rest,
      validArrayType a = true ->
      parseFieldTypePrefix (arrayDescriptor a ++ rest)
      = Some (componentType a, rest)).
  - intros rest. destruct b as [[]]; simpl; intros H;
      solve [reflexivity | discriminate H].
  - intros rest H. destruct o as [name]; simpl in *.
    apply negb_true_iff in H.
    rewrite append_assoc; simpl. rewrite (split_append _ _ _ H). reflexivity.
  - intros rest H. simpl in *. rewrite (IHt rest H).
    destruct a; reflexivity.
  - intros rest H. simpl in *. now apply IHt.
Qed.

Lemma parseFieldTypePrefix_sound (s : string) :
  forall t rest,
    parseFieldTypePrefix s = Some (t, rest) -> s = fieldDescriptor t ++ rest.
Proof.
  induction s as [|c s IH]; intros t rest; simpl; [discriminate |].
  destruct (Ascii.eqb c "L") eqn:HL.
  { apply Ascii.eqb_eq in HL; subst c.
    destruct (StringRef.split ";" s) as [[name r]|] eqn:Hs; [| discriminate].
    intros [= <- <-]. simpl. rewrite append_assoc; simpl.
    now rewrite (split_sound _ _ _ _ Hs). }
  destruct (Ascii.eqb c "[") eqn:HA.
  { apply Ascii.eqb_eq in HA; subst c.
    destruct (parseFieldTypePrefix s) as [[t' r]|] eqn:Hs; [| discriminate].
    intros [= <- <-]. simpl. now rewrite (IH _ _ eq_refl). }
  unfold baseTypeOfLetter.
  repeat match goal with
  | |- context [Ascii.eqb c ?x] =>
      let E := fresh in
      destruct (Ascii.eqb c x) eqn:E;
      [ apply Ascii.eqb_eq in E; subst c; intros [= <- <-]; reflexivity
      | try (apply Ascii.eqb_eq in E; subst c; discriminate) ]
  end; discriminate.
Qed.

Lemma consume_front_descriptor (c : ascii) (t : FieldType) (rest : string) :
  c = ")"%char \/ c = "("%char \/ (c = "V"%char /\ validFieldType t = true) ->
  StringRef.consume_front (String c "") (fieldDescriptor t ++ rest) = None.
Proof.
  intros H. destruct t as [[[]]|o|a]; simpl;
    destruct H as [-> | [-> | [-> H]]]; try reflexivity; discriminate H.
Qed.

Lemma parseReturnTypePrefix_descriptor (t : FieldType) (rest : string) :
  validReturnType t = true ->
  parseReturnTypePrefix (fieldDescriptor t ++ rest) = Some (t, rest).
Proof.
  unfold parseReturnTypePrefix. intros H.
  destruct t as [[v]|o|a].
  - destruct v; reflexivity.
  - rewrite consume_front_descriptor by auto.
    now apply parseFieldTypePrefix_descriptor.
  - rewrite consume_front_descriptor by auto.
    now apply parseFieldTypePrefix_descriptor.
Qed.

Lemma parseReturnTypePrefix_sound (s : string) (t : FieldType) (rest : string) :
  parseReturnTypePrefix s = Some (t, rest) -> s = fieldDescriptor t ++ rest.
Proof.
  unfold parseReturnTypePrefix.
  destruct (StringRef.consume_front "V" s) as [r|] eqn:HV.
  - intros [= <- <-]. apply (consume_front_sound _ _ _ HV).
  - apply parseFieldTypePrefix_sound.
Qed.

Lemma parametersDescriptor_length (ps : list FieldType) :
  length ps <= String.length (parametersDescriptor ps).
Proof.
  induction ps as [|p ps IH]; simpl; [lia |].
  rewrite length_append.
  assert (1 <= String.length (fieldDescriptor p))
    by (destruct p as [[[]]|o|a]; simpl; lia).
  lia.
Qed.

Lemma parseParameters_descriptor (ps : list FieldType) :
  forall fuel rest,
    forallb validFieldType ps = true ->
    length ps < fuel ->
    parseParameters fuel (parametersDescriptor ps ++ String ")" rest)
    = Some (ps, rest).
Proof.
  induction ps as [|p ps IH]; intros fuel rest Hv Hfuel;
    (destruct fuel as [|fuel]; [simpl in Hfuel; lia |]).
  - reflexivity.
  - simpl in Hv, Hfuel. cbn [parseParameters parametersDescriptor].
    apply andb_true_iff in Hv as [Hp Hps].
    rewrite append_assoc.
    rewrite consume_front_descriptor by auto.
    rewrite (parseFieldTypePrefix_descriptor p _ Hp).
    rewrite IH by (assumption || lia). reflexivity.
Qed.

Lemma parseParameters_sound (fuel : nat) :
  forall s ps rest,
    parseParameters fuel s = Some (ps, rest) ->
    s = parametersDescriptor ps ++ String ")" rest.
Proof.
  induction fuel as [|fuel IH]; intros s ps rest;
    cbn [parseParameters]; [discriminate |].
  destruct (StringRef.consume_front ")" s) as [r|] eqn:Hc.
  - intros [= <- <-]. apply (consume_front_sound _ _ _ Hc).
  - destruct (parseFieldTypePrefix s) as [[t r]|] eqn:Ht; [| discriminate].
    destruct (parseParameters fuel r) as [[ts r']|] eqn:Hr; [| discriminate].
    intros [= <- <-]. simpl. rewrite append_assoc.
    rewrite <- (IH _ _ _ Hr). now apply parseFieldTypePrefix_sound.
Qed.

Lemma parseFieldType_descriptor (t : FieldType) :
  validFieldType t = true -> parseFieldType (fieldDescriptor t) = Some t.
Proof.
  intros H. unfold parseFieldType.
  pose proof (parseFieldTypePrefix_descriptor t "" H) as Hp.
  replace (fieldDescriptor t ++ "") with (fieldDescriptor t) in Hp.
  - now rewrite Hp.
  - clear. induction (fieldDescriptor t); simpl; congruence.
Qed.

Lemma parseFieldType_sound (s : string) (t : FieldType) :
  parseFieldType s = Some t -> s = fieldDescriptor t.
Proof.
  unfold parseFieldType.
  destruct (parseFieldTypePrefix s) as [[t' [|c r]]|] eqn:Hp; try discriminate.
  intros [= <-]. rewrite (parseFieldTypePrefix_sound _ _ _ Hp).
  clear. induction (fieldDescriptor t'); simpl; congruence.
Qed.

Lemma parseMethodType_descriptor (m : MethodType) :
  validMethodType m = true -> parseMethodType (methodDescriptor m) = Some m.
Proof.
  destruct m as [ps r]. unfold validMethodType, methodDescriptor; simpl.
  intros H. apply andb_true_iff in H as [Hps Hr].
  unfold parseMethodType; simpl.
  rewrite parseParameters_descriptor.
  - pose proof (parseReturnTypePrefix_descriptor r "" Hr) as Hp.
    replace (fieldDescriptor r ++ "") with (fieldDescriptor r) in Hp
      by (clear; induction (fieldDescriptor r); simpl; congruence).
    now rewrite Hp.
  - exact Hps.
  - rewrite length_append. pose proof (parametersDescriptor_length ps).
    simpl. lia.
Qed.

Lemma parseMethodType_sound (s : string) (m : MethodType) :
  parseMethodType s = Some m -> s = methodDescriptor m.
Proof.
  unfold parseMethodType.
  destruct (StringRef.consume_front "(" s) as [r|] eqn:Hc; [| discriminate].
  destruct (parseParameters _ r) as [[ps r']|] eqn:Hp; [| discriminate].
  destruct (parseReturnTypePrefix r') as [[t [|c x]]|] eqn:Hr;
    try discriminate.
  intros [= <-]. unfold methodDescriptor; simpl.
  rewrite (consume_front_sound _ _ _ Hc); simpl. f_equal.
  rewrite (parseParameters_sound _ _ _ _ Hp). f_equal. f_equal.
  rewrite (parseReturnTypePrefix_sound _ _ _ Hr).
  clear. induction (fieldDescriptor t); simpl; congruence.
Qed.

(** ** The call prefix *)

Lemma consumeCallPrefix_prefixed (kind : CallPrefix) (member : string) :
  kind <> NoPrefix ->
  StringRef.consume_front classObjectPrefix (callPrefix kind ++ member) = None
  /\ consumeCallPrefix (callPrefix kind ++ member) = (kind, member).
Proof.
  intros Hk. destruct kind as [| |[]]; try congruence; split; reflexivity.
Qed.

Lemma consumeCallPrefix_unprefixed (className rest : string) :
  unprefixed className = true ->
  StringRef.consume_front classObjectPrefix (className ++ String "." rest)
  = None
  /\ consumeCallPrefix (className ++ String "." rest)
     = (NoPrefix, className ++ String "." rest).
Proof.
  unfold unprefixed. rewrite !andb_true_iff, !negb_true_iff.
  intros [[[[HL HS] HV] HI] HP]. unfold consumeCallPrefix.
  rewrite !starts_with_before_separator by (assumption || reflexivity).
  split; reflexivity.
Qed.

Lemma consumeCallPrefix_sound (s : string) (kind : CallPrefix)
    (member : string) :
  consumeCallPrefix s = (kind, member) -> s = callPrefix kind ++ member.
Proof.
  unfold consumeCallPrefix.
  destruct (StringRef.consume_front staticCallPrefix s) eqn:HS.
  { intros [= <- <-]. apply (consume_front_sound _ _ _ HS). }
  destruct (StringRef.consume_front virtualCallPrefix s) eqn:HV.
  { intros [= <- <-]. apply (consume_front_sound _ _ _ HV). }
  destruct (StringRef.consume_front interfaceCallPrefix s) eqn:HI.
  { intros [= <- <-]. apply (consume_front_sound _ _ _ HI). }
  destruct (StringRef.consume_front specialCallPrefix s) eqn:HP.
  { intros [= <- <-]. apply (consume_front_sound _ _ _ HP). }
  intros [= <- <-]. reflexivity.
Qed.

(** A prefix without ['.'] that is in front of [c ++ "." ++ r] is in
    front of [c]. *)
Lemma consume_front_class (p c r m : string) :
  StringRef.contains "." p = false ->
  StringRef.consume_front p (c ++ String "." r) = Some m ->
  exists c', c = p ++ c' /\ m = c' ++ String "." r.
Proof.
  revert c. induction p as [|a p IH]; intros c Hp.
  - simpl. intros [= <-]. exists c. split; reflexivity.
  - simpl in Hp. apply orb_false_iff in Hp as [Ha Hp].
    destruct c as [|y c]; cbn [String.append StringRef.consume_front].
    + rewrite Ascii.eqb_sym, Ha. discriminate.
    + destruct (Ascii.eqb y a) eqn:E; [| discriminate].
      apply Ascii.eqb_eq in E; subst y. intros H.
      destruct (IH c Hp H) as (c' & -> & ->).
      exists c'. split; reflexivity.
Qed.

Lemma consumeCallPrefix_class (c r : string) (kind : CallPrefix)
    (member : string) :
  consumeCallPrefix (c ++ String "." r) = (kind, member) ->
  exists c', c = callPrefix kind ++ c' /\ member = c' ++ String "." r.
Proof.
  unfold consumeCallPrefix.
  destruct (StringRef.consume_front staticCallPrefix _) eqn:HS.
  { intros [= <- <-].
    exact (consume_front_class staticCallPrefix _ _ _ eq_refl HS). }
  destruct (StringRef.consume_front virtualCallPrefix _) eqn:HV.
  { intros [= <- <-].
    exact (consume_front_class virtualCallPrefix _ _ _ eq_refl HV). }
  destruct (StringRef.consume_front interfaceCallPrefix _) eqn:HI.
  { intros [= <- <-].
    exact (consume_front_class interfaceCallPrefix _ _ _ eq_refl HI). }
  destruct (StringRef.consume_front specialCallPrefix _) eqn:HP.
  { intros [= <- <-].
    exact (consume_front_class specialCallPrefix _ _ _ eq_refl HP). }
  intros [= <- <-]. exists c. split; reflexivity.
Qed.

Lemma contains_append_false (sep : ascii) (a b : string) :
  StringRef.contains sep (a ++ b) = false -> StringRef.contains sep b = false.
Proof.
  induction a as [|x a IH]; simpl; [trivial |].
  intros H. apply orb_false_iff in H as [_ H]. exact (IH H).
Qed.

(** ** Members *)

Lemma demangleMember_split (kind : CallPrefix)
    (className name descriptor : string) :
  separable className name = true ->
  demangleMember kind (className ++ String "." (name ++ String ":" descriptor))
  = if StringRef.starts_with "(" descriptor then
      match parseMethodType descriptor, kind with
      | Some mt, StaticPrefix => DemangledStaticCall className name mt
      | Some mt, ResolutionPrefix resolution =>
          DemangledMethodResolutionCall resolution className name mt
      | _, _ => Monostate
      end
    else
      match parseFieldType descriptor with
      | Some t => DemangledFieldAccess (callPrefix kind ++ className) name t
      | None => Monostate
      end.
Proof.
  unfold separable. rewrite andb_true_iff, !negb_true_iff. intros [Hc Hn].
  unfold demangleMember.
  rewrite (split_append _ _ _ Hc), (split_append _ _ _ Hn). reflexivity.
Qed.

Lemma mangleDirectMethodCall_eq (className methodName : string)
    (descriptor : MethodType) :
  mangleDirectMethodCall className methodName descriptor
  = className ++ String "." (methodName
      ++ String ":" (methodDescriptor descriptor)).
Proof. reflexivity. Qed.

Lemma mangleFieldAccess_eq (className fieldName : string)
    (descriptor : FieldType) :
  mangleFieldAccess className fieldName descriptor
  = className ++ String "." (fieldName
      ++ String ":" (fieldDescriptor descriptor)).
Proof. reflexivity. Qed.

Lemma starts_with_paren_method (m : MethodType) :
  StringRef.starts_with "(" (methodDescriptor m) = true.
Proof. reflexivity. Qed.

Lemma starts_with_paren_field (t : FieldType) :
  StringRef.starts_with "(" (fieldDescriptor t) = false.
Proof. destruct t as [[[]]|o|a]; reflexivity. Qed.

(** A call under a prefix reads back. *)
Lemma demangle_prefixed_call (kind : CallPrefix) (className methodName : string)
    (descriptor : MethodType) :
  kind <> NoPrefix ->
  separable className methodName = true ->
  validMethodType descriptor = true ->
  demangleStubSymbolName
    (callPrefix kind ++ mangleDirectMethodCall className methodName descriptor)
  = match kind with
    | NoPrefix => Monostate
    | StaticPrefix => DemangledStaticCall className methodName descriptor
    | ResolutionPrefix resolution =>
        DemangledMethodResolutionCall resolution className methodName
          descriptor
    end.
Proof.
  intros Hk Hsep Hd. unfold demangleStubSymbolName.
  destruct (consumeCallPrefix_prefixed kind
              (mangleDirectMethodCall className methodName descriptor) Hk)
    as [-> ->].
  rewrite mangleDirectMethodCall_eq, (demangleMember_split _ _ _ _ Hsep).
  rewrite starts_with_paren_method, (parseMethodType_descriptor _ Hd).
  destruct kind; reflexivity.
Qed.

Lemma demangle_field_access (className fieldName : string)
    (descriptor : FieldType) :
  separable className fieldName = true ->
  StringRef.starts_with classObjectPrefix className = false ->
  validFieldType descriptor = true ->
  demangleStubSymbolName (mangleFieldAccess className fieldName descriptor)
  = DemangledFieldAccess className fieldName descriptor.
Proof.
  intros Hsep HL Hd. unfold demangleStubSymbolName.
  rewrite mangleFieldAccess_eq.
  rewrite (starts_with_before_separator "." classObjectPrefix className _
             eq_refl HL).
  destruct (consumeCallPrefix _) as [kind member] eqn:Hk.
  apply consumeCallPrefix_class in Hk as (c' & -> & ->).
  assert (Hsep' : separable c' fieldName = true).
  { unfold separable in *. apply andb_true_iff in Hsep as [Hc Hn].
    apply negb_true_iff, contains_append_false in Hc.
    now rewrite Hc, Hn. }
  rewrite (demangleMember_split _ _ _ _ Hsep').
  rewrite starts_with_paren_field, (parseFieldType_descriptor _ Hd).
  reflexivity.
Qed.

Lemma demangle_class_object (descriptor : FieldType) :
  validFieldType descriptor = true ->
  demangleStubSymbolName (mangleClassObjectAccess descriptor)
  = DemangledClassObject descriptor.
Proof.
  intros Hd. unfold demangleStubSymbolName, mangleClassObjectAccess.
  rewrite consume_front_append, (parseFieldType_descriptor _ Hd).
  reflexivity.
Qed.

Lemma demangle_direct_call (className methodName : string)
    (descriptor : MethodType) :
  separable className methodName = true ->
  unprefixed className = true ->
  demangleStubSymbolName
    (mangleDirectMethodCall className methodName descriptor)
  = Monostate.
Proof.
  intros Hsep Hun. unfold demangleStubSymbolName.
  rewrite mangleDirectMethodCall_eq.
  destruct (consumeCallPrefix_unprefixed className
              (methodName ++ String ":" (methodDescriptor descriptor)) Hun)
    as [-> ->].
  rewrite (demangleMember_split _ _ _ _ Hsep), starts_with_paren_method.
  destruct (parseMethodType (methodDescriptor descriptor)); reflexivity.
Qed.

(** ** What the demangler returns was mangled *)

Lemma demangleMember_sound (kind : CallPrefix) (member : string)
    (x : DemangledVariant) :
  demangleMember kind member = x ->
  x <> Monostate ->
  mangle x = Some (callPrefix kind ++ member).
Proof.
  unfold demangleMember.
  destruct (StringRef.split "." member) as [[c rest]|] eqn:Hc;
    [| congruence].
  destruct (StringRef.split ":" rest) as [[n d]|] eqn:Hn; [| congruence].
  rewrite (split_sound _ _ _ _ Hc), (split_sound _ _ _ _ Hn).
  destruct (StringRef.starts_with "(" d).
  - destruct (parseMethodType d) as [mt|] eqn:Hd; [| congruence].
    rewrite (parseMethodType_sound _ _ Hd).
    destruct kind; intros <- Hx; try congruence; reflexivity.
  - destruct (parseFieldType d) as [t|] eqn:Hd; [| congruence].
    rewrite (parseFieldType_sound _ _ Hd).
    intros <- _. simpl. unfold mangleFieldAccess.
    rewrite append_assoc. reflexivity.
Qed.

Lemma demangleStubSymbolName_sound (s : string) (x : DemangledVariant) :
  demangleStubSymbolName s = x -> x <> Monostate -> mangle x = Some s.
Proof.
  unfold demangleStubSymbolName.
  destruct (StringRef.consume_front classObjectPrefix s) as [d|] eqn:HL.
  - destruct (parseFieldType d) as [t|] eqn:Hd; [| congruence].
    intros <- _. simpl. unfold mangleClassObjectAccess.
    rewrite (consume_front_sound _ _ _ HL), (parseFieldType_sound _ _ Hd).
    reflexivity.
  - destruct (consumeCallPrefix s) as [kind member] eqn:Hk.
    rewrite (consumeCallPrefix_sound _ _ _ Hk).
    apply demangleMember_sound.
Qed.

(** ** What the parsers return is valid *)

Lemma split_no_separator (sep : ascii) (s l r : string) :
  StringRef.split sep s = Some (l, r) -> StringRef.contains sep l = false.
Proof.
  revert l. induction s as [|c s IH]; intros l; simpl; [discriminate |].
  destruct (Ascii.eqb c sep) eqn:Hc.
  - intros [= <- <-]. reflexivity.
  - destruct (StringRef.split sep s) as [[l' r']|]; [| discriminate].
    intros [= <- <-]. simpl. rewrite Hc, (IH l' eq_refl). reflexivity.
Qed.

Lemma parseFieldTypePrefix_valid (s : string) :
  forall t rest,
    parseFieldTypePrefix s = Some (t, rest) -> validFieldType t = true.
Proof.
  induction s as [|c s IH]; intros t rest; simpl; [discriminate |].
  destruct (Ascii.eqb c "L").
  { destruct (StringRef.split ";" s) as [[name r]|] eqn:Hs; [| discriminate].
    intros [= <- <-]. simpl. now rewrite (split_no_separator _ _ _ _ Hs). }
  destruct (Ascii.eqb c "[").
  { destruct (parseFieldTypePrefix s) as [[t' r]|] eqn:Hs; [| discriminate].
    intros [= <- <-]. simpl. exact (IH _ _ eq_refl). }
  destruct (baseTypeOfLetter c) as [[]|]; try discriminate;
    intros [= <- <-]; reflexivity.
Qed.

Lemma parseReturnTypePrefix_valid (s : string) (t : FieldType)
    (rest : string) :
  parseReturnTypePrefix s = Some (t, rest) -> validReturnType t = true.
Proof.
  unfold parseReturnTypePrefix.
  destruct (StringRef.consume_front "V" s); [intros [= <- <-]; reflexivity |].
  intros H. apply parseFieldTypePrefix_valid in H.
  destruct t; [reflexivity | exact H | exact H].
Qed.

Lemma parseParameters_valid (fuel : nat) :
  forall s ps rest,
    parseParameters fuel s = Some (ps, rest) ->
    forallb validFieldType ps = true.
Proof.
  induction fuel as [|fuel IH]; intros s ps rest;
    cbn [parseParameters]; [discriminate |].
  destruct (StringRef.consume_front ")" s); [intros [= <- <-]; reflexivity |].
  destruct (parseFieldTypePrefix s) as [[t r]|] eqn:Ht; [| discriminate].
  destruct (parseParameters fuel r) as [[ts r']|] eqn:Hr; [| discriminate].
  intros [= <- <-]. simpl.
  now rewrite (parseFieldTypePrefix_valid _ _ _ Ht), (IH _ _ _ Hr).
Qed.

(** The rounds [parseMethodType] allows never run out: a result reached
    with any number of rounds is reached with [String.length s] of them. *)
Lemma parseParameters_fuel (fuel : nat) (s : string) (ps : list FieldType)
    (rest : string) :
  parseParameters fuel s = Some (ps, rest) ->
  parseParameters (String.length s) s = Some (ps, rest).
Proof.
  intros H. pose proof (parseParameters_valid _ _ _ _ H) as Hv.
  rewrite (parseParameters_sound _ _ _ _ H).
  apply parseParameters_descriptor; [exact Hv |].
  rewrite length_append. pose proof (parametersDescriptor_length ps).
  simpl. lia.
Qed.

Lemma parseMethodType_valid (s : string) (m : MethodType) :
  parseMethodType s = Some m -> validMethodType m = true.
Proof.
  unfold parseMethodType.
  destruct (StringRef.consume_front "(" s) as [r|]; [| discriminate].
  destruct (parseParameters _ r) as [[ps r']|] eqn:Hp; [| discriminate].
  destruct (parseReturnTypePrefix r') as [[t [|c x]]|] eqn:Hr;
    try discriminate.
  intros [= <-]. unfold validMethodType; simpl.
  now rewrite (parseParameters_valid _ _ _ _ Hp),
    (parseReturnTypePrefix_valid _ _ _ Hr).
Qed.

Lemma parseFieldType_valid (s : string) (t : FieldType) :
  parseFieldType s = Some t -> validFieldType t = true.
Proof.
  unfold parseFieldType.
  destruct (parseFieldTypePrefix s) as [[t' [|c r]]|] eqn:Hp; try discriminate.
  intros [= <-]. exact (parseFieldTypePrefix_valid _ _ _ Hp).
Qed.

(** ** The claims *)

(** C1, as the demangler can have it: a request whose class name has no
    ['.'] and, for a field access, no [Load ] in front, whose member name
    has no [':'] and whose descriptor is a valid one (no [Void] but as a
    return type, no [';'] inside a class name) is mangled to a symbol that
    demangles to the request itself. *)
Theorem demangle_mangle (x : DemangledVariant) :
  demanglable x = true ->
  exists s, mangle x = Some s /\ demangleStubSymbolName s = x.
Proof.
  destruct x as [|c f d|r c m d|c m d|d]; simpl; intros H.
  - discriminate H.
  - apply andb_true_iff in H as [H Hd].
    apply andb_true_iff in H as [Hs HL]. apply negb_true_iff in HL.
    eexists. split; [reflexivity |]. now apply demangle_field_access.
  - apply andb_true_iff in H as [Hs Hd].
    eexists. split; [reflexivity |].
    now apply (demangle_prefixed_call (ResolutionPrefix r)).
  - apply andb_true_iff in H as [Hs Hd].
    eexists. split; [reflexivity |].
    now apply (demangle_prefixed_call StaticPrefix).
  - eexists. split; [reflexivity |]. now apply demangle_class_object.
Qed.

Lemma demangle_mangle_witness :
  let x := DemangledMethodResolutionCall Virtual "java/lang/Object" "toString"
             (mkMethodType [] (FT_Object (mkObjectType "java/lang/String"))) in
  demanglable x = true
  /\ exists s, mangle x = Some s /\ demangleStubSymbolName s = x.
Proof.
  split; [reflexivity |].
  apply (demangle_mangle
           (DemangledMethodResolutionCall Virtual "java/lang/Object" "toString"
              (mkMethodType [] (FT_Object (mkObjectType "java/lang/String"))))).
  reflexivity.
Defined.

(** A field access whose class name begins with a call prefix has a
    symbol of its own and reads back. *)
Lemma field_access_under_call_prefix :
  mangleFieldAccess "Static Call to A" "f" (FT_Base (mkBaseType Int))
  = "Static Call to A.f:I"
  /\ demangleStubSymbolName "Static Call to A.f:I"
     = DemangledFieldAccess "Static Call to A" "f" (FT_Base (mkBaseType Int)).
Proof. split; reflexivity. Qed.

(** C1 as stated fails. Two different field accesses have the same symbol,
    so no demangler returns both; so have a field access with a ['.'] in
    its class name and one without, and a field access with [Load ] in
    front of its class name and a class-object load; [Void] as a field
    type and a [';'] in a class name give descriptors the parser does not
    read. *)
Lemma mangle_not_injective :
  (mangle (DemangledFieldAccess "C" "a:Lb" (FT_Object (mkObjectType "c")))
   = Some "C.a:Lb:Lc;"
   /\ mangle (DemangledFieldAccess "C" "a" (FT_Object (mkObjectType "b:Lc")))
      = Some "C.a:Lb:Lc;"
   /\ demangleStubSymbolName "C.a:Lb:Lc;"
      = DemangledFieldAccess "C" "a" (FT_Object (mkObjectType "b:Lc"))
   /\ demangleStubSymbolName "C.a:Lb:Lc;"
      <> DemangledFieldAccess "C" "a:Lb" (FT_Object (mkObjectType "c")))
  /\ (mangle (DemangledFieldAccess "a.b" "c" (FT_Base (mkBaseType Int)))
      = Some "a.b.c:I"
      /\ demangleStubSymbolName "a.b.c:I"
         = DemangledFieldAccess "a" "b.c" (FT_Base (mkBaseType Int)))
  /\ (mangle (DemangledFieldAccess "Load La" "f" (FT_Object (mkObjectType "x")))
      = Some "Load La.f:Lx;"
      /\ demangleStubSymbolName "Load La.f:Lx;"
         = DemangledClassObject (FT_Object (mkObjectType "a.f:Lx")))
  /\ (mangle (DemangledClassObject (FT_Base (mkBaseType Void)))
      = Some "Load V"
      /\ demangleStubSymbolName "Load V" = Monostate)
  /\ (mangle (DemangledClassObject (FT_Object (mkObjectType "a;b")))
      = Some "Load La;b;"
      /\ demangleStubSymbolName "Load La;b;" = Monostate).
Proof.
  repeat split; try reflexivity. vm_compute. discriminate.
Qed.

Lemma contains_append (sep : ascii) (l r : string) :
  StringRef.contains sep (l ++ String sep r) = true.
Proof.
  induction l as [|c l IH]; simpl.
  - rewrite Ascii.eqb_refl. reflexivity.
  - rewrite IH. apply orb_true_r.
Qed.

(** No request is mangled to ["main"]. *)
Lemma main_not_mangled (x : DemangledVariant) : mangle x <> Some "main".
Proof.
  destruct x as [|c f d|[] c m d|c m d|d]; simpl; try discriminate.
  intros [= H]. apply (f_equal (StringRef.contains ".")) in H.
  rewrite mangleFieldAccess_eq, contains_append in H. discriminate H.
Qed.

(** C2, as the demangler can have it: a string that no request is mangled
    to demangles to [std::monostate]; so does the symbol of a direct call
    whose class name has no ['.'] and none of the five prefixes in front and
    whose method name has no [':']; and every mangling function returns a
    symbol. *)
Theorem demangle_unrecognised :
  (forall s, (forall x, mangle x <> Some s) ->
      demangleStubSymbolName s = Monostate)
  /\ (forall className methodName descriptor,
      separable className methodName = true ->
      unprefixed className = true ->
      demangleStubSymbolName
        (mangleDirectMethodCall className methodName descriptor)
      = Monostate)
  /\ (forall x, x <> Monostate -> exists s, mangle x = Some s)
  /\ (forall className methodName descriptor,
      exists s, mangleDirectMethodCall className methodName descriptor = s).
Proof.
  split; [| split; [| split]].
  - intros s Hs.
    destruct (demangleStubSymbolName s) as [|c f d|r c m d|c m d|d] eqn:Hx;
      [reflexivity | exfalso ..];
      refine (Hs _ (demangleStubSymbolName_sound _ _ Hx _)); discriminate.
  - exact demangle_direct_call.
  - intros [|c f d|r c m d|c m d|d] Hx;
      [congruence | eexists; reflexivity ..].
  - intros c m d. eexists. reflexivity.
Qed.

Lemma demangle_unrecognised_witness :
  ((forall x, mangle x <> Some "main")
   /\ demangleStubSymbolName "main" = Monostate)
  /\ (separable "java/lang/Object" "hashCode" = true
      /\ unprefixed "java/lang/Object" = true
      /\ demangleStubSymbolName
           (mangleDirectMethodCall "java/lang/Object" "hashCode"
              (mkMethodType [] (FT_Base (mkBaseType Int))))
         = Monostate).
Proof.
  split.
  - split; [exact main_not_mangled |].
    exact (proj1 demangle_unrecognised "main" main_not_mangled).
  - split; [reflexivity |]. split; [reflexivity |].
    exact (proj1 (proj2 demangle_unrecognised) "java/lang/Object" "hashCode"
             (mkMethodType [] (FT_Base (mkBaseType Int)))
             eq_refl eq_refl).
Defined.

(** C2 as stated fails on direct calls. The symbol of a direct call to a
    class whose name begins with a call prefix is the symbol of a stub and
    demangles to it; a [':'] in the method name, or a ['.'] followed by a
    [':'] in the class name, moves the descriptor and gives a field
    access. *)
Lemma direct_call_demangled :
  (mangleDirectMethodCall "Static Call to A" "m"
     (mkMethodType [] (FT_Base (mkBaseType Void)))
   = mangleStaticCall "A" "m" (mkMethodType [] (FT_Base (mkBaseType Void)))
   /\ demangleStubSymbolName
        (mangleDirectMethodCall "Static Call to A" "m"
           (mkMethodType [] (FT_Base (mkBaseType Void))))
      = DemangledStaticCall "A" "m"
          (mkMethodType [] (FT_Base (mkBaseType Void)))
   /\ demangleStubSymbolName
        (mangleDirectMethodCall "Static Call to A" "m"
           (mkMethodType [] (FT_Base (mkBaseType Void))))
      <> Monostate)
  /\ demangleStubSymbolName
       (mangleDirectMethodCall "A" "m:Lb"
          (mkMethodType [] (FT_Object (mkObjectType "x"))))
     = DemangledFieldAccess "A" "m" (FT_Object (mkObjectType "b:()Lx"))
  /\ demangleStubSymbolName
       (mangleDirectMethodCall "a.b:La" "m"
          (mkMethodType [] (FT_Object (mkObjectType "x"))))
     = DemangledFieldAccess "a" "b" (FT_Object (mkObjectType "a.m:()Lx")).
Proof.
  repeat split; try reflexivity. vm_compute. discriminate.
Qed.

End ManglingProperties.

(** * Further properties of the descriptors *)

Module DescriptorsLaws.
Import Descriptors.

Lemma FieldType_eq_sym (l r : FieldType) :
  FieldType_eq l r = FieldType_eq r l.
Proof.
  apply Bool.eq_iff_eq_true.
  rewrite !DescriptorsProperties.FieldType_eq_leibniz.
  split; intros ->; reflexivity.
Qed.

(** Each [operator!=] is written [!(rhs == *this)], with the operands of
    [==] exchanged. It is nevertheless the negation of [lhs == rhs] for
    base, object and array types, because each [==] is symmetric; so
    [!=] holds exactly when the two values differ. *)
Theorem operator_ne_negates_eq :
  (forall l r : BaseType, BaseType_ne l r = negb (BaseType_eq l r))
  /\ (forall l r : ObjectType, ObjectType_ne l r = negb (ObjectType_eq l r))
  /\ (forall l r : ArrayType, ArrayType_ne l r = negb (ArrayType_eq l r))
  /\ (forall l r : FieldType, FieldType_eq l r = FieldType_eq r l)
  /\ (forall l r : ArrayType,
        ArrayType_ne l r = true <-> componentType l <> componentType r).
Proof.
  split; [| split; [| split; [| split]]].
  - intros l r. unfold BaseType_ne, BaseType_eq. f_equal.
    apply bool_decide_ext. split; congruence.
  - intros l r. unfold ObjectType_ne, ObjectType_eq, StringRef.equals.
    f_equal. apply String.eqb_sym.
  - intros l r. unfold ArrayType_ne.
    rewrite !DescriptorsProperties.ArrayType_eq_components.
    f_equal. apply FieldType_eq_sym.
  - exact FieldType_eq_sym.
  - intros l r. unfold ArrayType_ne.
    rewrite DescriptorsProperties.ArrayType_eq_components.
    rewrite negb_true_iff, <- Bool.not_true_iff_false.
    rewrite DescriptorsProperties.FieldType_eq_leibniz.
    split; intros H E; apply H; congruence.
Qed.

(** Only integer types are unsigned: a base type [isUnsigned] accepts is
    one [isIntegerType] accepts too. *)
Theorem isUnsigned_isIntegerType (b : BaseType) :
  isUnsigned b = true -> isIntegerType b = true.
Proof.
  destruct b as [[]]; unfold isUnsigned, isIntegerType; simpl;
    intros H; solve [reflexivity | discriminate H].
Qed.

Lemma isUnsigned_isIntegerType_witness :
  isUnsigned (mkBaseType Char) = true
  /\ isIntegerType (mkBaseType Char) = true.
Proof.
  split; [reflexivity |].
  apply (isUnsigned_isIntegerType (mkBaseType Char)). reflexivity.
Defined.

(** On the descriptor of a field type, written as the header's grammar
    comments give it, with anything after it, [isReferenceDescriptor]
    returns a value, and the value is true exactly for object and array
    types. *)
Theorem isReferenceDescriptor_fieldDescriptor (t : FieldType)
    (rest : string) :
  isReferenceDescriptor
    (String.append (ClassObjectStubMangling.fieldDescriptor t) rest)
  = Some (match t with
          | FT_Base _ => false
          | FT_Object _ | FT_Array _ => true
          end).
Proof. destruct t as [[[]]|o|a]; reflexivity. Qed.

End DescriptorsLaws.

(** * Further properties of the operand stack *)

Module OperandStackLaws.
Import CodeGeneratorUtils.

Section Laws.

Context {Value Ty : Type}.
Variable getType : Value -> Ty.
Variable referenceType : Ty.

#[local] Abbreviation Stack := (@OperandStack Value Ty).

(** The stacks a client of one [OperandStack] object can bring it to: the
    constructor's, and what a member function makes of one. [StackState]
    has a private constructor, so the states handed to [restoreState] are
    those [saveState] and [getHandlerState] returned. *)
Inductive reachable (builder : @IRBuilder Value) (maxStack : nat)
  : Stack -> Prop :=
  | reachable_new :
      reachable builder maxStack (OperandStack_new builder maxStack)
  | reachable_push_back s v s' :
      reachable builder maxStack s ->
      push_back getType v s = Some (tt, s') ->
      reachable builder maxStack s'
  | reachable_pop_back s l s' :
      reachable builder maxStack s ->
      pop_back s = Some (l, s') ->
      reachable builder maxStack s'
  | reachable_pop_back_with_type s r s' :
      reachable builder maxStack s ->
      pop_back_with_type s = Some (r, s') ->
      reachable builder maxStack s'
  | reachable_setHandlerStack s v s' :
      reachable builder maxStack s ->
      setHandlerStack getType v s = Some (tt, s') ->
      reachable builder maxStack s'
  | reachable_restore_saved s s0 s' :
      reachable builder maxStack s ->
      reachable builder maxStack s0 ->
      restoreState (saveState s0) s = Some (tt, s') ->
      reachable builder maxStack s'
  | reachable_restore_handler s s' :
      reachable builder maxStack s ->
      restoreState (getHandlerState referenceType s) s = Some (tt, s') ->
      reachable builder maxStack s'.

(** The handler entry in its two orders: the caught value stored before
    or after the handler state is restored; a pop follows. *)
Definition store_then_enter_handler (v : Value) : M LoadInst :=
  setHandlerStack getType v;;
  state ← gets (getHandlerState referenceType);
  restoreState state;;
  pop_back.

Definition enter_handler_then_store (v : Value) : M LoadInst :=
  state ← gets (getHandlerState referenceType);
  restoreState state;;
  setHandlerStack getType v;;
  pop_back.

Ltac run :=
  unfold push_back, pop_back, pop_back_with_type, pre_decrement_topOfStack,
    setHandlerStack, restoreState, mbind, M_bind, mret, M_ret, gets, modify,
    at_index, non_null, undefined; simpl.

(** ** What a call that returns has done *)

Lemma push_back_inv (v : Value) (s s' : Stack) :
  push_back getType v s = Some (tt, s') ->
  exists alloc,
    m_values s !! m_topOfStack s = Some alloc
    /\ m_topOfStack s < length (m_types s)
    /\ s' = mkOperandStack (m_values s)
              (<[m_topOfStack s := Some (getType v)]> (m_types s))
              (CreateStore v alloc (m_builder s))
              (S (m_topOfStack s)).
Proof.
  run. destruct (m_values s !! m_topOfStack s) as [alloc|] eqn:Hv; simpl;
    [| discriminate].
  destruct (m_types s !! m_topOfStack s) as [ty|] eqn:Ht; simpl;
    [| discriminate].
  intros [= <-]. exists alloc. split; [reflexivity |].
  split; [apply (lookup_lt_Some _ _ _ Ht) | reflexivity].
Qed.

Lemma pop_back_inv (s : Stack) (l : LoadInst) (s' : Stack) :
  pop_back s = Some (l, s') ->
  exists top alloc ty,
    m_topOfStack s = S top
    /\ m_values s !! top = Some alloc
    /\ m_types s !! top = Some (Some ty)
    /\ l = CreateLoad ty alloc (m_builder s)
    /\ s' = set_topOfStack top s.
Proof.
  run. destruct (m_topOfStack s) as [|top] eqn:Htop; simpl; [discriminate |].
  destruct (m_values s !! top) as [alloc|] eqn:Hv; simpl; [| discriminate].
  destruct (m_types s !! top) as [[ty|]|] eqn:Ht; simpl; try discriminate.
  intros [= <- <-]. exists top, alloc, ty. repeat split; assumption.
Qed.

Lemma setHandlerStack_inv (v : Value) (s s' : Stack) :
  setHandlerStack getType v s = Some (tt, s') ->
  exists alloc,
    m_values s !! 0 = Some alloc
    /\ 0 < length (m_types s)
    /\ s' = mkOperandStack (m_values s)
              (<[0 := Some (getType v)]> (m_types s))
              (CreateStore v alloc (m_builder s))
              (m_topOfStack s).
Proof.
  run. destruct (m_values s !! 0) as [alloc|] eqn:Hv; simpl; [| discriminate].
  destruct (m_types s !! 0) as [ty|] eqn:Ht; simpl; [| discriminate].
  intros [= <-]. exists alloc. split; [reflexivity |].
  split; [apply (lookup_lt_Some _ _ _ Ht) | reflexivity].
Qed.

Lemma setHandlerStack_run (v : Value) (s : Stack) (alloc : AllocaInst) :
  m_values s !! 0 = Some alloc ->
  0 < length (m_types s) ->
  setHandlerStack getType v s
  = Some (tt, mkOperandStack (m_values s)
                (<[0 := Some (getType v)]> (m_types s))
                (CreateStore v alloc (m_builder s))
                (m_topOfStack s)).
Proof.
  intros Hv Ht. apply lookup_lt_is_Some_2 in Ht as [ty Hty].
  run. rewrite Hv; simpl. rewrite Hty; simpl. reflexivity.
Qed.

Lemma restoreState_eq (state : StackState) (s : Stack) :
  restoreState state s
  = Some (tt, mkOperandStack (m_values s) (state_types state) (m_builder s)
                (state_topOfStack state)).
Proof. reflexivity. Qed.

Lemma pop_back_with_type_inv (s : Stack) (r : LoadInst * Ty) (s' : Stack) :
  pop_back_with_type s = Some (r, s') ->
  pop_back s = Some (r.1, s') /\ r.2 = getLoadType r.1.
Proof.
  rewrite OperandStackProperties.pop_back_with_type_eq.
  destruct (pop_back s) as [[l s1]|]; [| discriminate].
  intros [= <- <-]. split; reflexivity.
Qed.

Lemma set_topOfStack_id (s : Stack) : set_topOfStack (m_topOfStack s) s = s.
Proof. destruct s; reflexivity. Qed.

Lemma remainingCapacity_pos (s : Stack) :
  0 < remainingCapacity s
  <-> m_topOfStack s < length (m_values s)
      /\ m_topOfStack s < length (m_types s).
Proof. unfold remainingCapacity. lia. Qed.

Lemma push_back_defined (v : Value) (s : Stack) :
  is_Some (push_back getType v s) <-> 0 < remainingCapacity s.
Proof.
  rewrite remainingCapacity_pos. split.
  - intros [[[] s'] H]. apply push_back_inv in H as (alloc & Hv & Ht & _).
    split; [apply (lookup_lt_Some _ _ _ Hv) | exact Ht].
  - intros [Hv Ht]. apply lookup_lt_is_Some_2 in Hv as [alloc Hv].
    rewrite (OperandStackProperties.push_back_run getType v s alloc Hv Ht).
    eauto.
Qed.

(** ** Bounds *)

(** A list of values can be pushed exactly when it is no longer than the
    remaining capacity: within it every push returns, and the first push
    past it indexes a vector out of range. *)
Theorem push_all_defined (vs : list Value) :
  forall s : Stack,
    is_Some (push_all getType vs s) <-> length vs <= remainingCapacity s.
Proof.
  induction vs as [|v vs IH]; intros s; simpl.
  - split; [lia | intros _; eexists; reflexivity].
  - unfold mbind, M_bind.
    destruct (push_back getType v s) as [[[] s1]|] eqn:Hp.
    + apply push_back_inv in Hp as (alloc & Hv & Ht & ->).
      apply lookup_lt_Some in Hv.
      rewrite IH. unfold remainingCapacity; simpl.
      rewrite length_insert. lia.
    + split; [intros [x Hx]; discriminate Hx |].
      intros Hle. assert (Hpos : 0 < remainingCapacity s) by lia.
      apply (push_back_defined v) in Hpos as [x Hx]. congruence.
Qed.

(** Pops that return never go below the bottom of the stack, change
    nothing but the top of stack, and read the slots under the top from
    the highest down, each cell at its recorded type. *)
Theorem pop_n_frame (n : nat) :
  forall (s : Stack) (loads : list LoadInst) (s' : Stack),
    pop_n n s = Some (loads, s') ->
    n <= m_topOfStack s
    /\ length loads = n
    /\ s' = set_topOfStack (m_topOfStack s - n) s
    /\ forall i l, loads !! i = Some l ->
         m_values s !! (m_topOfStack s - S i) = Some (getPointerOperand l)
         /\ m_types s !! (m_topOfStack s - S i) = Some (Some (getLoadType l))
         /\ loadedValue l = memory (m_builder s) !! getPointerOperand l.
Proof.
  induction n as [|n IH]; intros s loads s'; simpl.
  - intros [= <- <-]. rewrite Nat.sub_0_r, set_topOfStack_id.
    split; [lia |]. do 2 (split; [reflexivity |]).
    intros i l Hi. discriminate Hi.
  - unfold mbind, M_bind.
    destruct (pop_back s) as [[l s1]|] eqn:Hpop; [| discriminate].
    destruct (pop_n n s1) as [[ls s2]|] eqn:Hrest; [| discriminate].
    intros [= <- <-].
    apply pop_back_inv in Hpop as (top & alloc & ty & Htop & Hv & Ht & -> & ->).
    destruct (IH _ _ _ Hrest) as (Hn & Hlen & -> & Hloads).
    simpl in *. rewrite Htop.
    split; [lia |]. split; [simpl; lia |]. split; [reflexivity |].
    intros [|i] l' Hi; simpl in Hi.
    + injection Hi as <-. simpl. rewrite Nat.sub_0_r. repeat split; assumption.
    + exact (Hloads i l' Hi).
Qed.

(** ** One push *)

(** A push within the capacity returns, leaves the value in the cell of
    the slot at the top with its type recorded there, moves the top up by
    one, and changes neither the cells nor the recorded type or stored
    value of any other slot. *)
Theorem push_back_frame (v : Value) (s : Stack) :
  NoDup (m_values s) ->
  0 < remainingCapacity s ->
  exists s' alloc,
    push_back getType v s = Some (tt, s')
    /\ m_values s !! m_topOfStack s = Some alloc
    /\ memory (m_builder s') !! alloc = Some v
    /\ m_types s' !! m_topOfStack s = Some (Some (getType v))
    /\ m_topOfStack s' = S (m_topOfStack s)
    /\ m_values s' = m_values s
    /\ allocated (m_builder s') = allocated (m_builder s)
    /\ (forall i, i <> m_topOfStack s -> m_types s' !! i = m_types s !! i)
    /\ (forall i alloc', i <> m_topOfStack s ->
          m_values s !! i = Some alloc' ->
          memory (m_builder s') !! alloc' = memory (m_builder s) !! alloc').
Proof.
  intros Hnd Hcap. apply remainingCapacity_pos in Hcap as [Hv Ht].
  apply lookup_lt_is_Some_2 in Hv as [alloc Hv].
  eexists _, alloc. split.
  { apply (OperandStackProperties.push_back_run getType v s alloc Hv Ht). }
  simpl. split; [exact Hv |]. split; [apply lookup_insert_eq |].
  split; [apply list_lookup_insert_eq; exact Ht |].
  do 3 (split; [reflexivity |]). split.
  - intros i Hi. apply list_lookup_insert_ne. congruence.
  - intros i alloc' Hi Halloc'. apply lookup_insert_ne. intros ->.
    apply Hi. symmetry. eapply NoDup_lookup; eassumption.
Qed.

(** A push within the capacity followed by [pop_back_with_type] returns a
    load of the pushed value at its type, together with that type, and the
    top of stack is where it was. *)
Theorem push_back_pop_back_with_type (v : Value) (s : Stack) :
  0 < remainingCapacity s ->
  exists l s',
    (push_back getType v;; pop_back_with_type) s
    = Some ((l, getType v), s')
    /\ view l = (getType v, Some v)
    /\ m_values s !! m_topOfStack s = Some (getPointerOperand l)
    /\ m_topOfStack s' = m_topOfStack s
    /\ m_values s' = m_values s.
Proof.
  intros Hcap. apply remainingCapacity_pos in Hcap as [Hv Ht].
  apply lookup_lt_is_Some_2 in Hv as [alloc Hv].
  unfold mbind, M_bind.
  rewrite (OperandStackProperties.push_back_run getType v s alloc Hv Ht).
  rewrite OperandStackProperties.pop_back_with_type_eq.
  erewrite OperandStackProperties.pop_back_run;
    [| reflexivity | exact Hv | apply list_lookup_insert_eq; exact Ht].
  do 2 eexists. split; [reflexivity |].
  unfold view; simpl. rewrite lookup_insert_eq. repeat split. exact Hv.
Qed.

(** ** Saved states *)

(** [restoreState] always returns. The state saved right after a restore
    is the state restored; restoring the state just saved changes
    nothing; of two restores in a row the second one decides. *)
Theorem saveState_restoreState_lens :
  (forall (state : StackState) (s : Stack),
      exists s', restoreState state s = Some (tt, s')
                 /\ saveState s' = state
                 /\ m_values s' = m_values s
                 /\ m_builder s' = m_builder s)
  /\ (forall s : Stack, restoreState (saveState s) s = Some (tt, s))
  /\ (forall (state1 state2 : StackState) (s : Stack),
        (restoreState state1;; restoreState state2) s
        = restoreState state2 s).
Proof.
  split; [| split].
  - intros [types top] s. eexists. split; [reflexivity |]. repeat split.
  - intros [values types b top]. reflexivity.
  - intros state1 state2 s. reflexivity.
Qed.

(** ** The handler entry *)

(** On a stack with a slot 0 both orders of the handler entry return, and
    the pop reads the caught value from slot 0's cell with the top of
    stack back at 0. When the value is stored first, the restored handler
    state overwrites its recorded type and the load is at the reference
    type; when it is stored after the restore, the load is at the value's
    own type. *)
Theorem handler_entry_orders (v : Value) (s : Stack) (alloc : AllocaInst) :
  m_values s !! 0 = Some alloc ->
  0 < length (m_types s) ->
  exists l1 s1 l2 s2,
    store_then_enter_handler v s = Some (l1, s1)
    /\ view l1 = (referenceType, Some v)
    /\ enter_handler_then_store v s = Some (l2, s2)
    /\ view l2 = (getType v, Some v)
    /\ getPointerOperand l1 = alloc /\ getPointerOperand l2 = alloc
    /\ m_topOfStack s1 = 0 /\ m_topOfStack s2 = 0
    /\ m_types s1 = [Some referenceType]
    /\ m_types s2 = [Some (getType v)].
Proof.
  intros Hv Ht.
  unfold store_then_enter_handler, enter_handler_then_store.
  unfold mbind, M_bind, gets.
  rewrite (setHandlerStack_run v s alloc Hv Ht).
  rewrite !restoreState_eq; simpl.
  erewrite (OperandStackProperties.pop_back_run _ 0 alloc referenceType);
    [| reflexivity | exact Hv | reflexivity].
  erewrite setHandlerStack_run; [| exact Hv | simpl; lia]. simpl.
  erewrite (OperandStackProperties.pop_back_run _ 0 alloc (getType v));
    [| reflexivity | exact Hv | reflexivity].
  do 4 eexists. split; [reflexivity |].
  unfold view, CreateLoad, CreateStore; simpl. rewrite !lookup_insert_eq.
  repeat split.
Qed.

(** ** The constructor *)

(** A new stack has [maxStack] cells, pairwise distinct and none of them
    allocated before, no recorded type, top of stack 0 and capacity
    [maxStack]; no store was emitted, and a pop is undefined. The cells of
    a stack built next on the same builder are none of its own. *)
Theorem OperandStack_new_fresh (b : @IRBuilder Value) (maxStack : nat) :
  m_values (OperandStack_new (Ty := Ty) b maxStack)
  = seq (allocated b) maxStack
  /\ NoDup (m_values (OperandStack_new (Ty := Ty) b maxStack))
  /\ m_types (OperandStack_new (Ty := Ty) b maxStack)
     = replicate maxStack None
  /\ m_topOfStack (OperandStack_new (Ty := Ty) b maxStack) = 0
  /\ remainingCapacity (OperandStack_new (Ty := Ty) b maxStack) = maxStack
  /\ memory (m_builder (OperandStack_new (Ty := Ty) b maxStack)) = memory b
  /\ allocated (m_builder (OperandStack_new (Ty := Ty) b maxStack))
     = allocated b + maxStack
  /\ pop_back (OperandStack_new (Ty := Ty) b maxStack) = None
  /\ (forall (maxStack' : nat) (alloc : AllocaInst),
        alloc ∈ m_values (OperandStack_new (Ty := Ty) b maxStack) ->
        alloc ∉ m_values
                  (OperandStack_new (Ty := Ty)
                     (m_builder (OperandStack_new (Ty := Ty) b maxStack))
                     maxStack')).
Proof.
  rewrite !OperandStackProperties.OperandStack_new_eq; simpl.
  split; [reflexivity |]. split; [apply NoDup_seq |].
  split; [reflexivity |]. split; [reflexivity |].
  split.
  { unfold remainingCapacity; simpl.
    rewrite length_seq, length_replicate. lia. }
  do 3 (split; [reflexivity |]).
  intros maxStack' alloc.
  rewrite !OperandStackProperties.OperandStack_new_eq; simpl.
  rewrite !elem_of_seq. lia.
Qed.

(** ** What holds of every reachable stack *)

Lemma reachable_m_values (b : @IRBuilder Value) (maxStack : nat) (s : Stack) :
  reachable b maxStack s -> m_values s = seq (allocated b) maxStack.
Proof.
  induction 1 as [|s v s' _ IH Hp|s l s' _ IH Hp|s r s' _ IH Hp
                  |s v s' _ IH Hp|s s0 s' _ IH _ _ Hp|s s' _ IH Hp].
  - rewrite OperandStackProperties.OperandStack_new_eq. reflexivity.
  - apply push_back_inv in Hp as (alloc & _ & _ & ->). exact IH.
  - apply pop_back_inv in Hp as (top & alloc & ty & _ & _ & _ & _ & ->).
    exact IH.
  - apply pop_back_with_type_inv in Hp as [Hp _].
    apply pop_back_inv in Hp as (top & alloc & ty & _ & _ & _ & _ & ->).
    exact IH.
  - apply setHandlerStack_inv in Hp as (alloc & _ & _ & ->). exact IH.
  - rewrite restoreState_eq in Hp. injection Hp as <-. exact IH.
  - rewrite restoreState_eq in Hp. injection Hp as <-. exact IH.
Qed.

(** On a stack built for at least one slot, whatever the member functions
    did: the cells are the [maxStack] distinct cells of the constructor,
    and the top of stack is at most the length of [m_types], which is at
    most [maxStack]. *)
Theorem reachable_topOfStack_bounded (b : @IRBuilder Value) (maxStack : nat)
    (s : Stack) :
  1 <= maxStack ->
  reachable b maxStack s ->
  m_values s = seq (allocated b) maxStack
  /\ NoDup (m_values s)
  /\ length (m_values s) = maxStack
  /\ m_topOfStack s <= length (m_types s)
  /\ length (m_types s) <= maxStack
  /\ m_topOfStack s <= maxStack.
Proof.
  intros Hmax Hr.
  pose proof (reachable_m_values _ _ _ Hr) as Hvals.
  rewrite Hvals, length_seq.
  split; [reflexivity |]. split; [apply NoDup_seq |]. split; [reflexivity |].
  cut (m_topOfStack s <= length (m_types s)
       /\ length (m_types s) <= maxStack); [lia |].
  clear Hvals.
  induction Hr as [|s v s' _ IH Hp|s l s' _ IH Hp|s r s' _ IH Hp
                   |s v s' _ IH Hp|s s0 s' _ IH _ IH0 Hp|s s' _ IH Hp].
  - rewrite OperandStackProperties.OperandStack_new_eq; simpl.
    rewrite length_replicate. lia.
  - apply push_back_inv in Hp as (alloc & _ & Ht & ->); simpl.
    rewrite length_insert. lia.
  - apply pop_back_inv in Hp as (top & alloc & ty & Htop & _ & _ & _ & ->).
    simpl. lia.
  - apply pop_back_with_type_inv in Hp as [Hp _].
    apply pop_back_inv in Hp as (top & alloc & ty & Htop & _ & _ & _ & ->).
    simpl. lia.
  - apply setHandlerStack_inv in Hp as (alloc & _ & _ & ->); simpl.
    rewrite length_insert. exact IH.
  - rewrite restoreState_eq in Hp. injection Hp as <-. simpl. exact IH0.
  - rewrite restoreState_eq in Hp. injection Hp as <-. simpl. lia.
Qed.

(** The bound needs the slot: on a stack built for no slot the restored
    handler state puts the top of stack at 1. *)
Lemma topOfStack_unbounded_without_slots (b : @IRBuilder Value) :
  exists s, reachable b 0 s /\ m_topOfStack s = 1.
Proof.
  eexists. split.
  - eapply reachable_restore_handler; [apply reachable_new | reflexivity].
  - reflexivity.
Qed.

(** The member functions allocate nothing and store to the stack's own
    cells only: on every reachable stack the builder has the constructor's
    [maxStack] cells more than before, and every other cell stores what it
    stored before the stack was built. *)
Theorem reachable_foreign_cells (b : @IRBuilder Value) (maxStack : nat)
    (s : Stack) :
  reachable b maxStack s ->
  allocated (m_builder s) = allocated b + maxStack
  /\ forall alloc : AllocaInst,
       alloc ∉ seq (allocated b) maxStack ->
       memory (m_builder s) !! alloc = memory b !! alloc.
Proof.
  intros Hr.
  induction Hr as [|s v s' Hs IH Hp|s l s' _ IH Hp|s r s' _ IH Hp
                   |s v s' Hs IH Hp|s s0 s' _ IH _ _ Hp|s s' _ IH Hp].
  - rewrite OperandStackProperties.OperandStack_new_eq; simpl.
    split; reflexivity.
  - apply push_back_inv in Hp as (alloc & Hv & _ & ->); simpl.
    destruct IH as [IHa IHm]. split; [exact IHa |].
    intros a Ha. rewrite lookup_insert_ne; [exact (IHm a Ha) |].
    intros ->. apply Ha. rewrite <- (reachable_m_values _ _ _ Hs).
    apply list_elem_of_lookup. eauto.
  - apply pop_back_inv in Hp as (top & alloc & ty & _ & _ & _ & _ & ->).
    exact IH.
  - apply pop_back_with_type_inv in Hp as [Hp _].
    apply pop_back_inv in Hp as (top & alloc & ty & _ & _ & _ & _ & ->).
    exact IH.
  - apply setHandlerStack_inv in Hp as (alloc & Hv & _ & ->); simpl.
    destruct IH as [IHa IHm]. split; [exact IHa |].
    intros a Ha. rewrite lookup_insert_ne; [exact (IHm a Ha) |].
    intros ->. apply Ha. rewrite <- (reachable_m_values _ _ _ Hs).
    apply list_elem_of_lookup. eauto.
  - rewrite restoreState_eq in Hp. injection Hp as <-. exact IH.
  - rewrite restoreState_eq in Hp. injection Hp as <-. exact IH.
Qed.

End Laws.

(** ** The properties at the sample instance *)

(** The stack of three slots after [i32 7] and a reference [r] were
    pushed. *)
Definition sampleStack : @OperandStack SampleValue SampleType :=
  mkOperandStack [0; 1; 2] [Some i32; Some reference; None]
    (mkIRBuilder 3 (<[1 := Reference "r"]> (<[0 := ConstantInt 7]> ∅))) 2.

(** A builder that allocated one cell and stored to it before any stack
    was built. *)
Definition usedBuilder : @IRBuilder SampleValue :=
  mkIRBuilder 1 (<[0 := ConstantInt 42]> ∅).

(** The stack of two slots built on [usedBuilder], after a reference [r]
    was pushed. *)
Definition pushedStack : @OperandStack SampleValue SampleType :=
  mkOperandStack [1; 2] [Some reference; None]
    (mkIRBuilder 3 (<[1 := Reference "r"]> (<[0 := ConstantInt 42]> ∅))) 1.

Lemma pop_n_frame_witness :
  exists loads s',
    pop_n 2 sampleStack = Some (loads, s')
    /\ 2 <= m_topOfStack sampleStack
    /\ length loads = 2
    /\ s' = set_topOfStack (m_topOfStack sampleStack - 2) sampleStack
    /\ forall i l, loads !! i = Some l ->
         m_values sampleStack !! (m_topOfStack sampleStack - S i)
         = Some (getPointerOperand l)
         /\ m_types sampleStack !! (m_topOfStack sampleStack - S i)
            = Some (Some (getLoadType l))
         /\ loadedValue l
            = memory (m_builder sampleStack) !! getPointerOperand l.
Proof.
  do 2 eexists. split; [reflexivity |].
  apply (pop_n_frame 2 sampleStack). reflexivity.
Defined.

Lemma push_back_frame_witness :
  NoDup (m_values sampleStack)
  /\ 0 < remainingCapacity sampleStack
  /\ exists s' alloc,
       push_back sampleTypeOf (ConstantInt 1) sampleStack = Some (tt, s')
       /\ m_values sampleStack !! m_topOfStack sampleStack = Some alloc
       /\ memory (m_builder s') !! alloc = Some (ConstantInt 1)
       /\ m_types s' !! m_topOfStack sampleStack
          = Some (Some (sampleTypeOf (ConstantInt 1)))
       /\ m_topOfStack s' = S (m_topOfStack sampleStack)
       /\ m_values s' = m_values sampleStack
       /\ allocated (m_builder s') = allocated (m_builder sampleStack)
       /\ (forall i, i <> m_topOfStack sampleStack ->
             m_types s' !! i = m_types sampleStack !! i)
       /\ (forall i alloc', i <> m_topOfStack sampleStack ->
             m_values sampleStack !! i = Some alloc' ->
             memory (m_builder s') !! alloc'
             = memory (m_builder sampleStack) !! alloc').
Proof.
  assert (Hnd : NoDup (m_values sampleStack)) by apply (NoDup_seq 0 3).
  assert (Hcap : 0 < remainingCapacity sampleStack) by (vm_compute; lia).
  split; [exact Hnd |]. split; [exact Hcap |].
  exact (push_back_frame sampleTypeOf (ConstantInt 1) sampleStack Hnd Hcap).
Defined.

Lemma push_back_pop_back_with_type_witness :
  0 < remainingCapacity sampleStack
  /\ exists l s',
       (push_back sampleTypeOf (Reference "q");; pop_back_with_type)
         sampleStack
       = Some ((l, sampleTypeOf (Reference "q")), s')
       /\ view l = (sampleTypeOf (Reference "q"), Some (Reference "q"))
       /\ m_values sampleStack !! m_topOfStack sampleStack
          = Some (getPointerOperand l)
       /\ m_topOfStack s' = m_topOfStack sampleStack
       /\ m_values s' = m_values sampleStack.
Proof.
  assert (Hcap : 0 < remainingCapacity sampleStack) by (vm_compute; lia).
  split; [exact Hcap |].
  exact (push_back_pop_back_with_type sampleTypeOf (Reference "q")
           sampleStack Hcap).
Defined.

Lemma handler_entry_orders_witness :
  m_values sampleStack !! 0 = Some 0
  /\ 0 < length (m_types sampleStack)
  /\ exists l1 s1 l2 s2,
       store_then_enter_handler sampleTypeOf reference (ConstantInt 5)
         sampleStack = Some (l1, s1)
       /\ view l1 = (reference, Some (ConstantInt 5))
       /\ enter_handler_then_store sampleTypeOf reference (ConstantInt 5)
            sampleStack = Some (l2, s2)
       /\ view l2 = (sampleTypeOf (ConstantInt 5), Some (ConstantInt 5))
       /\ getPointerOperand l1 = 0 /\ getPointerOperand l2 = 0
       /\ m_topOfStack s1 = 0 /\ m_topOfStack s2 = 0
       /\ m_types s1 = [Some reference]
       /\ m_types s2 = [Some (sampleTypeOf (ConstantInt 5))].
Proof.
  assert (Hv : m_values sampleStack !! 0 = Some 0) by reflexivity.
  assert (Ht : 0 < length (m_types sampleStack)) by (vm_compute; lia).
  split; [exact Hv |]. split; [exact Ht |].
  exact (handler_entry_orders sampleTypeOf reference (ConstantInt 5)
           sampleStack 0 Hv Ht).
Defined.

Lemma reachable_topOfStack_bounded_witness :
  1 <= 2
  /\ reachable sampleTypeOf reference usedBuilder 2 pushedStack
  /\ m_values pushedStack = seq (allocated usedBuilder) 2
  /\ NoDup (m_values pushedStack)
  /\ length (m_values pushedStack) = 2
  /\ m_topOfStack pushedStack <= length (m_types pushedStack)
  /\ length (m_types pushedStack) <= 2
  /\ m_topOfStack pushedStack <= 2.
Proof.
  assert (Hmax : 1 <= 2) by lia.
  assert (Hr : reachable sampleTypeOf reference usedBuilder 2 pushedStack)
    by (eapply (reachable_push_back _ _ _ _ _ (Reference "r"));
        [apply reachable_new | reflexivity]).
  split; [exact Hmax |]. split; [exact Hr |].
  exact (reachable_topOfStack_bounded sampleTypeOf reference usedBuilder 2
           pushedStack Hmax Hr).
Defined.

Lemma reachable_foreign_cells_witness :
  reachable sampleTypeOf reference usedBuilder 2 pushedStack
  /\ allocated (m_builder pushedStack) = allocated usedBuilder + 2
  /\ forall alloc : AllocaInst,
       alloc ∉ seq (allocated usedBuilder) 2 ->
       memory (m_builder pushedStack) !! alloc = memory usedBuilder !! alloc.
Proof.
  assert (Hr : reachable sampleTypeOf reference usedBuilder 2 pushedStack)
    by (eapply (reachable_push_back _ _ _ _ _ (Reference "r"));
        [apply reachable_new | reflexivity]).
  split; [exact Hr |].
  exact (reachable_foreign_cells sampleTypeOf reference usedBuilder 2
           pushedStack Hr).
Defined.

End OperandStackLaws.
